(** * Bounded multi-round tool-calling orchestration

    A shallow embedding of [backend/ai_generator.py] (class [AIGenerator])
    together with the tool registry and the content search tool that the
    test-suite exercises.  Python objects that are mutated or that answer
    calls (the Anthropic client, the tool manager) live in an explicit
    [World]; every method is a computation over that world which either
    returns a value or raises, keeping the world it reached. *)

From Stdlib Require Import String Ascii List ZArith Lia Bool DecimalString Sorted.
Import ListNotations.

Local Open Scope string_scope.
Local Open Scope list_scope.

(** ** Python values *)

(** [str(n)] for a Python [int]. *)
Definition str_of_int (n : Z) : string := NilZero.string_of_int (Z.to_int n).

(** The line feed written as a backslash-n escape in the source. *)
Definition nl : string := String (ascii_of_nat 10) EmptyString.

(** Values found in the [input] mapping of a tool-use block. *)
Inductive Value : Type :=
| VStr (s : string)
| VInt (n : Z)
| VNone.

(** A keyword-argument mapping, [**content_block.input]. *)
Definition Args : Type := list (string * Value).

(** Exceptions carry their class name and [str(e)]. *)
Record Exn : Type := mkExn { exn_class : string; exn_msg : string }.

Definition IndexError : Exn := mkExn "IndexError" "list index out of range".
Definition AttributeError (what : string) : Exn := mkExn "AttributeError" what.

(** Outcome of running a piece of Python: a value, a raised exception, or
    the loop budget of the model exhausted (shown below never to happen). *)
Inductive Result (A : Type) : Type :=
| Return (a : A)
| Raise (e : Exn)
| OutOfFuel.
Arguments Return {A} a.
Arguments Raise {A} e.
Arguments OutOfFuel {A}.

(** ** Messages API data *)

(** Content blocks of a response.  A text block has a [text] attribute, a
    tool-use block has [id], [name] and [input] and no [text]. *)
Inductive ContentBlock : Type :=
| TextBlock (text : string)
| ToolUseBlock (id : string) (name : string) (input : Args).

Definition block_type (b : ContentBlock) : string :=
  match b with
  | TextBlock _ => "text"
  | ToolUseBlock _ _ _ => "tool_use"
  end.

Record Response : Type := mkResponse {
  stop_reason : string;
  content : list ContentBlock
}.

(** [{"type": "tool_result", "tool_use_id": ..., "content": ...}] *)
Record ToolResult : Type := mkToolResult {
  result_type : string;
  tool_use_id : string;
  result_content : string
}.

Inductive MessageContent : Type :=
| PlainText (s : string)
| Blocks (bs : list ContentBlock)
| ToolResults (rs : list ToolResult).

Record Message : Type := mkMessage {
  role : string;
  msg_content : MessageContent
}.

Record ToolSchema : Type := mkToolSchema {
  schema_name : string;
  schema_description : string;
  schema_properties : list (string * string);
  schema_required : list string
}.

(** [{"type": "auto"}] *)
Inductive ToolChoice : Type := auto.

(** Keyword arguments of [client.messages.create].  An absent key is [None]. *)
Record ApiParams : Type := mkApiParams {
  model : string;
  temperature : Z;
  max_tokens : Z;
  messages : list Message;
  system : string;
  tools : option (list ToolSchema);
  tool_choice : option ToolChoice
}.

(** [response.content[0].text]: the list may be empty, and a tool-use block
    has no [text]. *)
Definition content0_text (r : Response) : Result string :=
  match content r with
  | [] => Raise IndexError
  | TextBlock t :: _ => Return t
  | ToolUseBlock _ _ _ :: _ =>
      Raise (AttributeError "'ToolUseBlock' object has no attribute 'text'")
  end.

(** [response.stop_reason == "tool_use"] *)
Definition requests_tool_use (r : Response) : bool :=
  stop_reason r =? "tool_use".

(** ** Collaborators *)

(** What a call to the provider comes back with. *)
Inductive Reply : Type :=
| Answer (r : Response)
| Failure (e : Exn).

(** The Generation Client: [client.messages.create] answers or
    raises, and may change the client. *)
Class GenerationClient (C : Type) : Type := {
  messages_create : C -> ApiParams -> Reply * C
}.

(** Modelled from the spec: the tool manager class ([search_tools.py]) is not
    part of the sources at hand; sections 4.2 and 7 give its [dispatch] as an
    operation that always yields a result text (failures are surfaced as
    text), possibly changing the manager (its citation slot). *)
Class ToolManager (M : Type) : Type := {
  execute_tool : M -> string -> Args -> string * M
}.

(** ** Content search tool and tool registry *)

(** Modelled from the spec: [search_tools.py] (classes [CourseSearchTool] and
    [ToolManager]) and the vector store are not among the sources at hand,
    only their tests are.  The definitions of this part follow sections 3,
    4.2 and 4.3 of the specification; the keyword names [query],
    [course_name] and [lesson_number] are those the tests pass. *)

(** A display-ready reference: [{"text": ..., "link": ...}] in the tests. *)
Record Citation : Type := mkCitation {
  display_text : string;
  link : option string
}.

(** One ranked match of the search backend: its text and the course title
    and optional lesson number of its metadata. *)
Record Match : Type := mkMatch {
  match_text : string;
  course_title : string;
  lesson_number : option Z
}.

Record SearchResults : Type := mkSearchResults {
  matches : list Match;
  error : option string
}.

(** The search backend, an opaque provider: a ranked search under optional
    course and lesson filters, and a link resolver that may raise. *)
Record SearchBackend : Type := mkSearchBackend {
  search : string -> option string -> option Z -> SearchResults;
  get_lesson_link : string -> option Z -> Exn + option string
}.

(** What a tool execution produces: the result text and the citations that
    replace those held before. *)
Record ToolOutput : Type := mkToolOutput {
  output_text : string;
  output_citations : list Citation
}.

(** The common capability interface of tools. *)
Record Tool : Type := mkTool {
  tool_schema : ToolSchema;
  tool_execute : Args -> ToolOutput
}.

Definition tool_name (t : Tool) : string := schema_name (tool_schema t).

Module ContentSearch.

(** Modelled from the spec: the empty-result branch of the missing
    [CourseSearchTool.execute] (section 4.3): the four fixed templates,
    selected by which filters were supplied. *)
Definition empty_message (course : option string) (lesson : option Z) : string :=
  match course, lesson with
  | None, None => "No relevant content found."
  | Some c, None => "No relevant content found in course '" ++ c ++ "'."
  | None, Some n => "No relevant content found in lesson " ++ str_of_int n ++ "."
  | Some c, Some n =>
      "No relevant content found in course '" ++ c ++ "' in lesson "
      ++ str_of_int n ++ "."
  end.

(** Modelled from the spec: the display text of a citation of the missing
    [CourseSearchTool] (section 4.3), [<course> - Lesson <n>], or [<course>]
    without a lesson number. *)
Definition label (m : Match) : string :=
  match lesson_number m with
  | Some n => course_title m ++ " - Lesson " ++ str_of_int n
  | None => course_title m
  end.

(** Modelled from the spec: the rendering of one match by the missing
    [CourseSearchTool] (section 4.3), a header line, then the text. *)
Definition render (m : Match) : string :=
  "[" ++ label m ++ "]" ++ nl ++ match_text m.

(** Modelled from the spec: the result text of the missing
    [CourseSearchTool] (section 4.3), the matches in the backend's order, a
    blank line between them. *)
Fixpoint render_all (ms : list Match) : string :=
  match ms with
  | [] => ""
  | [m] => render m
  | m :: rest => render m ++ nl ++ nl ++ render_all rest
  end.

(** Modelled from the spec: link resolution of the missing
    [CourseSearchTool] (section 4.3); a resolution that raises gives the
    null link for that match. *)
Definition resolve_link (backend : SearchBackend) (m : Match) : option string :=
  match get_lesson_link backend (course_title m) (lesson_number m) with
  | inr l => l
  | inl _ => None
  end.

Definition citation_of (backend : SearchBackend) (m : Match) : Citation :=
  mkCitation (label m) (resolve_link backend m).

(** Modelled from the spec: the missing [CourseSearchTool.execute], as
    [execute(query, courseFilter?, lessonFilter?)] of section 4.3, giving the
    result text together with the citations that replace the slot. *)
Definition execute (backend : SearchBackend) (query : string)
    (course : option string) (lesson : option Z) : ToolOutput :=
  let results := search backend query course lesson in
  match error results with
  | Some e => mkToolOutput e []
  | None =>
      match matches results with
      | [] => mkToolOutput (empty_message course lesson) []
      | ms => mkToolOutput (render_all ms) (map (citation_of backend) ms)
      end
  end.

Definition lookup_arg (key : string) (args : Args) : option Value :=
  match find (fun kv => fst kv =? key) args with
  | Some kv => Some (snd kv)
  | None => None
  end.

(** Modelled from the spec: the argument mapping of a call to the missing
    [CourseSearchTool] read into its three parameters; [query] is required,
    the two filters are optional (section 6, and the tests' keywords). *)
Definition decode (args : Args) : option (string * option string * option Z) :=
  match lookup_arg "query" args with
  | Some (VStr q) =>
      match lookup_arg "course_name" args, lookup_arg "lesson_number" args with
      | (None | Some VNone), (None | Some VNone) => Some (q, None, None)
      | Some (VStr c), (None | Some VNone) => Some (q, Some c, None)
      | (None | Some VNone), Some (VInt n) => Some (q, None, Some n)
      | Some (VStr c), Some (VInt n) => Some (q, Some c, Some n)
      | _, _ => None
      end
  | _ => None
  end.

Definition schema : ToolSchema :=
  mkToolSchema "search_course_content" "Search course materials"
    [("query", "string"); ("course_name", "string"); ("lesson_number", "integer")]
    ["query"].

(** Modelled from the spec: the missing [CourseSearchTool] behind the common
    interface.  An argument error is surfaced as result text (section 7);
    the specification fixes no wording for it, so the text is left to the
    caller of this constructor. *)
Definition tool (backend : SearchBackend) (invalid_arguments : string) : Tool :=
  mkTool schema
    (fun args =>
       match decode args with
       | Some (q, c, l) => execute backend q c l
       | None => mkToolOutput invalid_arguments []
       end).

End ContentSearch.

Module Registry.

(** Modelled from the spec: the state of the missing [ToolManager]
    (section 4.2), the registered tools in registration order and the single
    citation slot. *)
Record t : Type := mk {
  registered : list (string * Tool);
  citation_slot : list Citation
}.

Definition empty : t := mk [] [].

Fixpoint store (name : string) (tl : Tool) (table : list (string * Tool))
    : list (string * Tool) :=
  match table with
  | [] => [(name, tl)]
  | (n, old) :: rest =>
      if n =? name then (name, tl) :: rest else (n, old) :: store name tl rest
  end.

(** Modelled from the spec: [register(tool)] of the missing [ToolManager]
    ([register_tool] in the tests): stored by declared name, the last
    registration wins. *)
Definition register (tl : Tool) (r : t) : t :=
  mk (store (tool_name tl) tl (registered r)) (citation_slot r).

(** Modelled from the spec: [getSchemas()] of the missing [ToolManager]
    ([get_tool_definitions] in the tests). *)
Definition getSchemas (r : t) : list ToolSchema :=
  map (fun entry => tool_schema (snd entry)) (registered r).

Definition lookup (name : string) (r : t) : option Tool :=
  match find (fun entry => fst entry =? name) (registered r) with
  | Some entry => Some (snd entry)
  | None => None
  end.

(** Modelled from the spec: [dispatch(name, arguments)] of the missing
    [ToolManager] ([execute_tool] in the tests): an unknown name gives the
    not-found text, a known one runs the tool, whose citations overwrite the
    slot. *)
Definition dispatch (r : t) (name : string) (arguments : Args) : string * t :=
  match lookup name r with
  | None => (("Tool '" ++ name ++ "' not found")%string, r)
  | Some tl =>
      let out := tool_execute tl arguments in
      (output_text out, mk (registered r) (output_citations out))
  end.

(** Modelled from the spec: [getLastCitations()] of the missing
    [ToolManager] ([get_last_sources] in the tests). *)
Definition getLastCitations (r : t) : list Citation := citation_slot r.

(** Modelled from the spec: [resetCitations()] of the missing [ToolManager]
    ([reset_sources] in the tests). *)
Definition resetCitations (r : t) : t := mk (registered r) [].

End Registry.

(** The registry is the tool manager the orchestrator is given. *)
#[export] Instance Registry_ToolManager : ToolManager Registry.t :=
  {| execute_tool := Registry.dispatch |}.

(** ** The orchestrator *)

Section Orchestrator.

Context {C M : Type} `{GenerationClient C} `{ToolManager M}.

(** The world of one query.  [client] is [self.client]; [manager] is the
    [tool_manager] argument ([None] when the caller passed none); the four
    logs are ghost state recording what happened: every client call with its
    outcome, every tool dispatched, every value taken by [round_count], and
    the lines printed. *)
Record World : Type := mkWorld {
  client : C;
  manager : option M;
  api_log : list (ApiParams * Reply);
  tool_log : list (string * Args);
  round_log : list Z;
  stdout : list string
}.

Definition init_world (c : C) (tool_manager : option M) : World :=
  mkWorld c tool_manager [] [] [] [].

Definition Comp (A : Type) : Type := World -> Result A * World.

Definition ret {A} (a : A) : Comp A := fun w => (Return a, w).

Definition raise {A} (e : Exn) : Comp A := fun w => (Raise e, w).

Definition bind {A B} (m : Comp A) (k : A -> Comp B) : Comp B :=
  fun w =>
    match m w with
    | (Return a, w') => k a w'
    | (Raise e, w') => (Raise e, w')
    | (OutOfFuel, w') => (OutOfFuel, w')
    end.

(** [try: m  except Exception as e: h e] *)
Definition try_except {A} (m : Comp A) (h : Exn -> Comp A) : Comp A :=
  fun w =>
    match m w with
    | (Raise e, w') => h e w'
    | r => r
    end.

Notation "x <- m ;; k" := (bind m (fun x => k))
  (at level 100, m at next level, right associativity).
Notation "m ;;; k" := (bind m (fun _ => k))
  (at level 100, right associativity).

(** [self.client.messages.create] *)
Definition create (params : ApiParams) : Comp Response :=
  fun w =>
    let (reply, c') := messages_create (client w) params in
    (match reply with Answer r => Return r | Failure e => Raise e end,
     mkWorld c' (manager w) (api_log w ++ [(params, reply)])
             (tool_log w) (round_log w) (stdout w)).

(** [tool_manager.execute_tool] on a name and keyword arguments *)
Definition call_tool (name : string) (input : Args) : Comp string :=
  fun w =>
    match manager w with
    | Some m =>
        let (text, m') := execute_tool m name input in
        (Return text,
         mkWorld (client w) (Some m') (api_log w)
                 (tool_log w ++ [(name, input)]) (round_log w) (stdout w))
    | None =>
        (Raise (AttributeError "'NoneType' object has no attribute 'execute_tool'"), w)
    end.

(** Truth value of the [tool_manager] argument. *)
Definition tool_manager_given : Comp bool :=
  fun w => (Return (match manager w with Some _ => true | None => false end), w).

(** An assignment to [round_count]. *)
Definition set_round_count (n : Z) : Comp unit :=
  fun w =>
    (Return tt,
     mkWorld (client w) (manager w) (api_log w) (tool_log w)
             (round_log w ++ [n]) (stdout w)).

Definition print (line : string) : Comp unit :=
  fun w =>
    (Return tt,
     mkWorld (client w) (manager w) (api_log w) (tool_log w)
             (round_log w) (stdout w ++ [line])).

(** A value or exception computed without touching the world. *)
Definition eval {A} (x : Result A) : Comp A := fun w => (x, w).

Record AIGenerator : Type := mkAIGenerator {
  SYSTEM_PROMPT : string;
  self_model : string
}.

(** The dictionary built on [self.base_params], where
    [base_params = {"model": self.model, "temperature": 0, "max_tokens": 800}] *)
Definition with_base_params (self : AIGenerator) (msgs : list Message)
    (sys : string) (tls : option (list ToolSchema)) (tc : option ToolChoice)
    : ApiParams :=
  mkApiParams (self_model self) 0%Z 800%Z msgs sys tls tc.

(** Local variables of the [while] loop of [_handle_tool_execution]. *)
Record LoopVars : Type := mkLoopVars {
  loop_messages : list Message;
  current_response : Response;
  round_count : Z
}.

(** A tool call requested by a response: the [id], [name] and [input] of a
    block whose type is [tool_use]. *)
Record ToolCallRequest : Type := mkToolCallRequest {
  call_id : string;
  call_name : string;
  call_arguments : Args
}.

(** The requests of a response, in the order its blocks appear. *)
Fixpoint tool_requests (blocks : list ContentBlock) : list ToolCallRequest :=
  match blocks with
  | [] => []
  | ToolUseBlock id name input :: rest =>
      mkToolCallRequest id name input :: tool_requests rest
  | TextBlock _ :: rest => tool_requests rest
  end.

(** Requests answered one after the other by a tool manager, each call
    seeing the manager the previous call left. *)
Fixpoint dispatch_all (m : M) (reqs : list ToolCallRequest) : list ToolResult * M :=
  match reqs with
  | [] => ([], m)
  | req :: rest =>
      let (text, m1) := execute_tool m (call_name req) (call_arguments req) in
      let (results, m2) := dispatch_all m1 rest in
      (mkToolResult "tool_result" (call_id req) text :: results, m2)
  end.

(** The inner [for content_block in current_response.content] loop. *)
Fixpoint execute_round (blocks : list ContentBlock) : Comp (list ToolResult) :=
  match blocks with
  | [] => ret []
  | ToolUseBlock id name input :: rest =>
      tool_result <- call_tool name input ;;
      tool_results <- execute_round rest ;;
      ret (mkToolResult "tool_result" id tool_result :: tool_results)
  | TextBlock _ :: rest => execute_round rest
  end.

Definition next_params (self : AIGenerator) (base_params : ApiParams)
    (msgs : list Message) : ApiParams :=
  with_base_params self msgs (system base_params)
    (Some (match tools base_params with Some t => t | None => [] end))
    (Some auto).

Definition final_params (self : AIGenerator) (base_params : ApiParams)
    (msgs : list Message) : ApiParams :=
  with_base_params self msgs (system base_params) None None.

(** How one pass through the loop body ends. *)
Inductive Flow : Type :=
| Again (st : LoopVars)
| Break (st : LoopVars).

(** Lines 129-151: count the round, record the assistant turn, run the
    batch, record its results when there are any. *)
Definition dispatch_round (st : LoopVars) : Comp LoopVars :=
  let round_count := (round_count st + 1)%Z in
  set_round_count round_count ;;;
  let messages :=
    loop_messages st ++ [mkMessage "assistant" (Blocks (content (current_response st)))] in
  tool_results <- execute_round (content (current_response st)) ;;
  let messages :=
    match tool_results with
    | [] => messages
    | _ :: _ => messages ++ [mkMessage "user" (ToolResults tool_results)]
    end in
  ret (mkLoopVars messages (current_response st) round_count).

(** Lines 129-172: one pass through the body of the [while] loop. *)
Definition loop_body (self : AIGenerator) (base_params : ApiParams)
    (max_rounds : Z) (st : LoopVars) : Comp Flow :=
  st' <- dispatch_round st ;;
  if (round_count st' >=? max_rounds)%Z then ret (Break st')
  else
    try_except
      (r <- create (next_params self base_params (loop_messages st')) ;;
       ret (Again (mkLoopVars (loop_messages st') r (round_count st'))))
      (fun e =>
         print ("Error in tool execution round " ++ str_of_int (round_count st')
                ++ ": " ++ exn_msg e)%string ;;;
         ret (Break st')).

(** The loop condition of lines 125-127. *)
Definition loop_cond (max_rounds : Z) (st : LoopVars) (w : World) : bool :=
  (round_count st <? max_rounds)%Z
  && requests_tool_use (current_response st)
  && match manager w with Some _ => true | None => false end.

(** The [while] loop, with a budget of passes. *)
Fixpoint while_rounds (fuel : nat) (self : AIGenerator) (base_params : ApiParams)
    (max_rounds : Z) (st : LoopVars) : Comp LoopVars :=
  fun w =>
    if loop_cond max_rounds st w then
      match fuel with
      | O => (OutOfFuel, w)
      | S fuel' =>
          match loop_body self base_params max_rounds st w with
          | (Return (Again st'), w') =>
              while_rounds fuel' self base_params max_rounds st' w'
          | (Return (Break st'), w') => (Return st', w')
          | (Raise e, w') => (Raise e, w')
          | (OutOfFuel, w') => (OutOfFuel, w')
          end
      end
    else (Return st, w).

Definition apology : string :=
  "I apologize, but I encountered an error while generating the final response.".

(** Lines 174-191: what follows the loop. *)
Definition finalize (self : AIGenerator) (base_params : ApiParams)
    (st : LoopVars) : Comp string :=
  if negb (requests_tool_use (current_response st)) then
    eval (content0_text (current_response st))
  else
    try_except
      (final_response <- create (final_params self base_params (loop_messages st)) ;;
       eval (content0_text final_response))
      (fun e =>
         print ("Error in final response generation: " ++ exn_msg e)%string ;;;
         ret apology).

(** The rest of [_handle_tool_execution] from the head of the loop. *)
Definition handle_from (fuel : nat) (self : AIGenerator) (base_params : ApiParams)
    (max_rounds : Z) (st : LoopVars) : Comp string :=
  st' <- while_rounds fuel self base_params max_rounds st ;;
  finalize self base_params st'.

(** The default of the [max_rounds] parameter. *)
Definition default_max_rounds : Z := 2.

(** [AIGenerator._handle_tool_execution].  The loop counts [round_count] up
    from 0 and stops at [max_rounds], so [max_rounds] passes are enough. *)
Definition _handle_tool_execution (self : AIGenerator) (initial_response : Response)
    (base_params : ApiParams) (max_rounds : Z) : Comp string :=
  let messages := messages base_params in
  let current_response := initial_response in
  let round_count := 0%Z in
  set_round_count round_count ;;;
  handle_from (Z.to_nat max_rounds) self base_params max_rounds
    (mkLoopVars messages current_response round_count).

(** Truth value of an optional string / list argument. *)
Definition nonempty_string (s : option string) : option string :=
  match s with
  | Some "" => None
  | other => other
  end.

Definition nonempty_list {A} (l : option (list A)) : option (list A) :=
  match l with
  | Some [] => None
  | other => other
  end.

(** Lines 76-93: the parameters of the first call. *)
Definition initial_params (self : AIGenerator) (query : string)
    (conversation_history : option string) (tools : option (list ToolSchema))
    : ApiParams :=
  let system_content :=
    match nonempty_string conversation_history with
    | Some h =>
        (SYSTEM_PROMPT self ++ nl ++ nl ++ "Previous conversation:" ++ nl ++ h)%string
    | None => SYSTEM_PROMPT self
    end in
  match nonempty_list tools with
  | Some t =>
      with_base_params self [mkMessage "user" (PlainText query)] system_content
        (Some t) (Some auto)
  | None =>
      with_base_params self [mkMessage "user" (PlainText query)] system_content
        None None
  end.

(** The body of [AIGenerator.generate_response], with the value handed to
    [_handle_tool_execution] as [max_rounds] (the literal 2 of line 101)
    left open. *)
Definition generate_response_rounds (max_rounds : Z) (self : AIGenerator)
    (query : string) (conversation_history : option string)
    (tools : option (list ToolSchema)) : Comp string :=
  let api_params := initial_params self query conversation_history tools in
  response <- create api_params ;;
  given <- tool_manager_given ;;
  if requests_tool_use response && given then
    _handle_tool_execution self response api_params max_rounds
  else
    eval (content0_text response).

(** [AIGenerator.generate_response(query, conversation_history, tools,
    tool_manager)]; the [tool_manager] argument is the [manager] of the world
    the computation is run in. *)
Definition generate_response (self : AIGenerator) (query : string)
    (conversation_history : option string) (tools : option (list ToolSchema))
    : Comp string :=
  generate_response_rounds 2 self query conversation_history tools.

(** The transcript after a round whose batch produced [results]. *)
Definition round_messages (st : LoopVars) (results : list ToolResult)
    : list Message :=
  loop_messages st
  ++ mkMessage "assistant" (Blocks (content (current_response st)))
  :: match results with
     | [] => []
     | _ :: _ => [mkMessage "user" (ToolResults results)]
     end.

(** A logged call that was answered without a request for tool use. *)
Definition plain_answer (entry : ApiParams * Reply) : bool :=
  match snd entry with
  | Answer r => negb (requests_tool_use r)
  | Failure _ => false
  end.

(** No call logged so far was answered without a request for tool use. *)
Definition all_asking (log : list (ApiParams * Reply)) : Prop :=
  Forall (fun entry => plain_answer entry = false) log.

(** At the head of the loop the response at hand is the answer to the last
    call logged, and every earlier call failed or was answered with a
    request for tool use. *)
Definition head_logged (st : LoopVars) (w : World) : Prop :=
  exists pre p,
    api_log w = pre ++ [(p, Answer (current_response st))] /\ all_asking pre.

(** A finished run: only the last call logged can have been answered without
    a request for tool use, and if it was, the text of that answer is what
    the run returned. *)
Definition settled (out : Result string) (log : list (ApiParams * Reply)) : Prop :=
  exists pre last,
    log = pre ++ [last]
    /\ all_asking pre
    /\ forall r t,
         snd last = Answer r ->
         requests_tool_use r = false ->
         content0_text r = Return t ->
         out = Return t.

(** The loop variables a pass through the body ends with. *)
Definition flow_vars (f : Flow) : LoopVars :=
  match f with
  | Again st => st
  | Break st => st
  end.

(** The world once a batch has been dispatched. *)
Definition after_dispatch (w : World) (m : M) (reqs : list ToolCallRequest)
    (n : Z) : World :=
  mkWorld (client w) (Some (snd (dispatch_all m reqs))) (api_log w)
    (tool_log w ++ map (fun r => (call_name r, call_arguments r)) reqs)
    (round_log w ++ [n]) (stdout w).

(** The world after a call of the client. *)
Definition after_call (w : World) (params : ApiParams) : World :=
  mkWorld (snd (messages_create (client w) params)) (manager w)
    (api_log w ++ [(params, fst (messages_create (client w) params))])
    (tool_log w) (round_log w) (stdout w).

(** The world after [round_count] was given the value [n]. *)
Definition counted (w : World) (n : Z) : World :=
  mkWorld (client w) (manager w) (api_log w) (tool_log w) (round_log w ++ [n])
    (stdout w).

(** Whether a tool manager was passed. *)
Definition given (w : World) : bool :=
  match manager w with
  | Some _ => true
  | None => false
  end.

(** The world after a line was printed. *)
Definition printed (w : World) (line : string) : World :=
  mkWorld (client w) (manager w) (api_log w) (tool_log w) (round_log w)
    (stdout w ++ [line]).

End Orchestrator.

(** ** Runs of the loop *)

(** A transcript [later] that continues the transcript [earlier]. *)
Definition extends (earlier later : list Message) : Prop :=
  exists turns, later = earlier ++ turns.

(** Transcripts grown from [base] round by round: a response without any
    tool-use block adds its assistant turn alone; a response with tool-use
    blocks adds its assistant turn and then one turn of results, one result
    per block, in order, under the block's id. *)
Inductive Rounds (base : list Message) : list Message -> Prop :=
| Rounds_base : Rounds base base
| Rounds_silent (msgs : list Message) (blocks : list ContentBlock) :
    Rounds base msgs ->
    tool_requests blocks = [] ->
    Rounds base (msgs ++ [mkMessage "assistant" (Blocks blocks)])
| Rounds_answered (msgs : list Message) (blocks : list ContentBlock)
    (results : list ToolResult) :
    Rounds base msgs ->
    tool_requests blocks <> [] ->
    map tool_use_id results = map call_id (tool_requests blocks) ->
    Forall (fun res => result_type res = "tool_result") results ->
    Rounds base
      (msgs ++ [mkMessage "assistant" (Blocks blocks);
                mkMessage "user" (ToolResults results)]).

(** The values 0, 1, ..., n - 1 of a counter. *)
Definition count_up (n : nat) : list Z := map Z.of_nat (seq 0 n).

(** The tool calls requested by the answers of a log, in order. *)
Definition answered_requests (log : list (ApiParams * Reply))
    : list ToolCallRequest :=
  flat_map
    (fun entry =>
       match snd entry with
       | Answer r => tool_requests (content r)
       | Failure _ => []
       end)
    log.

(** A request as the tool manager sees it. *)
Definition name_and_arguments (req : ToolCallRequest) : string * Args :=
  (call_name req, call_arguments req).

(** A logged call that was answered. *)
Definition answered (entry : ApiParams * Reply) : Prop :=
  exists r, snd entry = Answer r.

(** The number of rounds a log of the round counter stands for: the counter
    is logged at 0 on entry and once more for every round. *)
Definition rounds_run (counter_log : list Z) : nat := length counter_log - 1.

Section OrchestratorRuns.

Context {C M : Type} `{GenerationClient C} `{ToolManager M}.

Local Abbreviation World := (@World C M).

(** The loop variables after the round that dispatches the requests of the
    response at hand. *)
Definition round_vars (st : LoopVars) (m : M) : LoopVars :=
  mkLoopVars
    (round_messages st
       (fst (dispatch_all m (tool_requests (content (current_response st))))))
    (current_response st) (round_count st + 1).

(** The world after that round. *)
Definition round_world (st : LoopVars) (w : World) (m : M) : World :=
  after_dispatch w m (tool_requests (content (current_response st)))
    (round_count st + 1).

(** The line printed when the continuation call of a round fails. *)
Definition round_error_line (st : LoopVars) (e : Exn) : string :=
  ("Error in tool execution round " ++ str_of_int (round_count st + 1) ++ ": "
   ++ exn_msg e)%string.

(** The ways through [_handle_tool_execution] from the head of its loop:
    the loop is left at once; a round reaches the maximum; the continuation
    call of a round fails; or the call is answered and the loop is entered
    again.  The first three end in what follows the loop. *)
Inductive Run (self : AIGenerator) (bp : ApiParams) (max_rounds : Z)
    : LoopVars -> World -> Result string * World -> Prop :=
| Run_exit (st : LoopVars) (w : World) :
    loop_cond max_rounds st w = false ->
    Run self bp max_rounds st w (finalize self bp st w)
| Run_break (st : LoopVars) (w : World) (m : M) :
    loop_cond max_rounds st w = true ->
    manager w = Some m ->
    (max_rounds <= round_count st + 1)%Z ->
    Run self bp max_rounds st w
      (finalize self bp (round_vars st m) (round_world st w m))
| Run_fail (st : LoopVars) (w : World) (m : M) (e : Exn) :
    loop_cond max_rounds st w = true ->
    manager w = Some m ->
    (round_count st + 1 < max_rounds)%Z ->
    fst (messages_create (client w)
           (next_params self bp (loop_messages (round_vars st m))))
    = Failure e ->
    Run self bp max_rounds st w
      (finalize self bp (round_vars st m)
         (printed
            (after_call (round_world st w m)
               (next_params self bp (loop_messages (round_vars st m))))
            (round_error_line st e)))
| Run_again (st : LoopVars) (w : World) (m : M) (r : Response)
    (res : Result string * World) :
    loop_cond max_rounds st w = true ->
    manager w = Some m ->
    (round_count st + 1 < max_rounds)%Z ->
    fst (messages_create (client w)
           (next_params self bp (loop_messages (round_vars st m))))
    = Answer r ->
    Run self bp max_rounds
      (mkLoopVars (loop_messages (round_vars st m)) r (round_count st + 1))
      (after_call (round_world st w m)
         (next_params self bp (loop_messages (round_vars st m))))
      res ->
    Run self bp max_rounds st w res.

End OrchestratorRuns.

(** ** Test doubles *)

(** A client that answers from a script, one entry per call, whatever the
    request; past the end of the script it raises. *)
Definition ScriptedClient : Type := list Reply.

Definition StopIteration : Exn := mkExn "StopIteration" "".

#[export] Instance ScriptedClient_GenerationClient : GenerationClient ScriptedClient :=
  {| messages_create := fun script _ =>
       match script with
       | [] => (Failure StopIteration, [])
       | r :: rest => (r, rest)
       end |}.

(** A tool manager that answers every call with the same text. *)
Record ConstantManager : Type := mkConstantManager { return_value : string }.

#[export] Instance ConstantManager_ToolManager : ToolManager ConstantManager :=
  {| execute_tool := fun m _ _ => (return_value m, m) |}.

(** The generator and the responses the scenarios below are played with. *)
Definition demo_generator : AIGenerator := mkAIGenerator "SYSTEM" "claude-sonnet-4-20250514".

Definition tool_use_response (id query : string) : Response :=
  mkResponse "tool_use"
    [ToolUseBlock id "search_course_content" [("query", VStr query)]].

Definition text_response (text : string) : Response :=
  mkResponse "end_turn" [TextBlock text].

Definition demo_manager : ConstantManager := mkConstantManager "Search results".

Definition demo_world (script : ScriptedClient) : @World ScriptedClient ConstantManager :=
  init_world script (Some demo_manager).

(** A response whose stop reason asks for tools but which holds no
    tool-use block. *)
Definition bare_tool_use_response : Response :=
  mkResponse "tool_use" [TextBlock "Let me look that up."].

(** A response that announces its search before asking for it. *)
Definition announced_tool_use_response : Response :=
  mkResponse "tool_use"
    [TextBlock "I will search the course.";
     ToolUseBlock "call_1" "search_course_content" [("query", VStr "topic")]].

(** The parameters of the first call of the scenarios. *)
Definition demo_params : ApiParams :=
  initial_params demo_generator "What is programming?" None None.

(** The loop variables on entry of the handler, and after a first round. *)
Definition first_round (r : Response) : LoopVars :=
  mkLoopVars (messages demo_params) r 0.

Definition second_round (r : Response) : LoopVars :=
  mkLoopVars
    (messages demo_params
     ++ [mkMessage "assistant" (Blocks (content (tool_use_response "call_1" "programming")));
         mkMessage "user"
           (ToolResults [mkToolResult "tool_result" "call_1" "Search results"])])
    r 1.

(** A client whose answers keep asking for tools. *)
Definition asking_script : ScriptedClient :=
  [Answer (tool_use_response "call_1" "programming");
   Answer (tool_use_response "call_2" "concepts");
   Answer (tool_use_response "call_3" "more");
   Answer (tool_use_response "call_4" "still more");
   Answer (text_response "Here is an overview.")].

Definition api_error (msg : string) : Exn := mkExn "APIError" msg.

(** The backend of the source-tracking test: two matches for an unfiltered
    query, none under a filter; a link for matches with a lesson number. *)
Definition demo_backend : SearchBackend :=
  mkSearchBackend
    (fun _ course lesson =>
       match course, lesson with
       | None, None =>
           mkSearchResults
             [mkMatch "Content 1" "Course A" (Some 1%Z);
              mkMatch "Content 2" "Course B" None]
             None
       | _, _ => mkSearchResults [] None
       end)
    (fun _ lesson =>
       match lesson with
       | Some _ => inr (Some "https://link1.com")
       | None => inr None
       end).

Definition demo_registry : Registry.t :=
  Registry.register (ContentSearch.tool demo_backend "Invalid arguments")
    Registry.empty.

(** ** Facts about the orchestrator *)

Section OrchestratorFacts.

Context {C M : Type} `{GenerationClient C} `{ToolManager M}.

Local Abbreviation World := (@World C M).

(** *** The steps of a round *)

Lemma execute_round_eq (blocks : list ContentBlock) :
  forall (w : World) (m : M),
    manager w = Some m ->
    execute_round blocks w =
    (Return (fst (dispatch_all m (tool_requests blocks))),
     mkWorld (client w) (Some (snd (dispatch_all m (tool_requests blocks))))
       (api_log w)
       (tool_log w
        ++ map (fun r => (call_name r, call_arguments r)) (tool_requests blocks))
       (round_log w) (stdout w)).
Proof.
  induction blocks as [|b rest IH]; intros w m Hm.
  - destruct w; simpl in *; subst. unfold ret. now rewrite app_nil_r.
  - destruct b as [t|id name input]; simpl.
    + now apply IH.
    + unfold bind, call_tool. rewrite Hm.
      destruct (execute_tool m name input) as [text m1].
      rewrite (IH _ m1) by reflexivity. simpl.
      destruct (dispatch_all m1 (tool_requests rest)) as [results m2].
      simpl. unfold ret. now rewrite <- app_assoc.
Qed.

Lemma dispatch_round_eq (st : LoopVars) (w : World) (m : M) :
  manager w = Some m ->
  let reqs := tool_requests (content (current_response st)) in
  dispatch_round st w =
  (Return (mkLoopVars (round_messages st (fst (dispatch_all m reqs)))
             (current_response st) (round_count st + 1)),
   after_dispatch w m reqs (round_count st + 1)).
Proof.
  intros Hm reqs. unfold dispatch_round, bind, set_round_count.
  rewrite (execute_round_eq _ _ m) by exact Hm. fold reqs.
  unfold ret, round_messages, after_dispatch. simpl.
  destruct (fst (dispatch_all m reqs)); simpl.
  - reflexivity.
  - now rewrite <- app_assoc.
Qed.

(** Each request of a batch gets one result, in order, under its own id. *)
Lemma dispatch_all_ids (m : M) (reqs : list ToolCallRequest) :
  map tool_use_id (fst (dispatch_all m reqs)) = map call_id reqs.
Proof.
  revert m. induction reqs as [|req rest IH]; intro m; simpl.
  - reflexivity.
  - destruct (execute_tool m (call_name req) (call_arguments req)) as [text m1].
    specialize (IH m1). destruct (dispatch_all m1 rest). simpl in *.
    now rewrite IH.
Qed.

Lemma dispatch_all_length (m : M) (reqs : list ToolCallRequest) :
  length (fst (dispatch_all m reqs)) = length reqs.
Proof.
  rewrite <- (length_map tool_use_id), dispatch_all_ids. apply length_map.
Qed.

(** *** Unfolding the loop *)

Lemma loop_cond_true (max_rounds : Z) (st : LoopVars) (w : World) :
  loop_cond max_rounds st w = true ->
  (round_count st < max_rounds)%Z
  /\ requests_tool_use (current_response st) = true
  /\ exists m, manager w = Some m.
Proof.
  unfold loop_cond. intro Hc.
  apply andb_prop in Hc as [Hc Hm]. apply andb_prop in Hc as [Hr Ht].
  apply Z.ltb_lt in Hr. repeat split; try assumption.
  destruct (manager w) as [m|]; [now exists m | discriminate].
Qed.

Lemma loop_cond_intro (max_rounds : Z) (st : LoopVars) (w : World) (m : M) :
  (round_count st < max_rounds)%Z ->
  requests_tool_use (current_response st) = true ->
  manager w = Some m ->
  loop_cond max_rounds st w = true.
Proof.
  intros Hr Ht Hm. unfold loop_cond. rewrite Ht, Hm.
  apply Z.ltb_lt in Hr. now rewrite Hr.
Qed.

Lemma handle_from_exit (fuel : nat) (self : AIGenerator) (bp : ApiParams)
    (max_rounds : Z) (st : LoopVars) (w : World) :
  loop_cond max_rounds st w = false ->
  handle_from fuel self bp max_rounds st w = finalize self bp st w.
Proof.
  intro Hc. unfold handle_from, bind. destruct fuel; simpl; now rewrite Hc.
Qed.

Lemma handle_from_step (fuel : nat) (self : AIGenerator) (bp : ApiParams)
    (max_rounds : Z) (st : LoopVars) (w : World) :
  loop_cond max_rounds st w = true ->
  handle_from (S fuel) self bp max_rounds st w =
  match loop_body self bp max_rounds st w with
  | (Return (Again st'), w') => handle_from fuel self bp max_rounds st' w'
  | (Return (Break st'), w') => finalize self bp st' w'
  | (Raise e, w') => (Raise e, w')
  | (OutOfFuel, w') => (OutOfFuel, w')
  end.
Proof.
  intro Hc. unfold handle_from, bind. simpl. rewrite Hc.
  destruct (loop_body self bp max_rounds st w) as [[[st'|st']|e|] w']; reflexivity.
Qed.

Lemma create_eq (params : ApiParams) (w : World) :
  create params w =
  (match fst (messages_create (client w) params) with
   | Answer r => Return r
   | Failure e => Raise e
   end, after_call w params).
Proof.
  unfold create, after_call.
  now destruct (messages_create (client w) params) as [reply c'].
Qed.

(** One pass through the loop body, case by case. *)
Lemma loop_body_eq (self : AIGenerator) (bp : ApiParams) (max_rounds : Z)
    (st : LoopVars) (w : World) (m : M) :
  manager w = Some m ->
  let reqs := tool_requests (content (current_response st)) in
  let msgs := round_messages st (fst (dispatch_all m reqs)) in
  let n := (round_count st + 1)%Z in
  let st1 := mkLoopVars msgs (current_response st) n in
  let w1 := after_dispatch w m reqs n in
  loop_body self bp max_rounds st w =
  if (n >=? max_rounds)%Z then (Return (Break st1), w1)
  else
    match fst (messages_create (client w) (next_params self bp msgs)) with
    | Answer r =>
        (Return (Again (mkLoopVars msgs r n)),
         after_call w1 (next_params self bp msgs))
    | Failure e =>
        (Return (Break st1),
         printed (after_call w1 (next_params self bp msgs))
           ("Error in tool execution round " ++ str_of_int n ++ ": "
            ++ exn_msg e)%string)
    end.
Proof.
  intros Hm reqs msgs n st1 w1. unfold loop_body, bind.
  rewrite (dispatch_round_eq st w m Hm). fold reqs msgs n st1 w1. simpl.
  destruct (n >=? max_rounds)%Z; [reflexivity|].
  unfold try_except, bind. rewrite create_eq.
  change (client w1) with (client w).
  destruct (fst (messages_create (client w) (next_params self bp msgs)));
    reflexivity.
Qed.

(** What follows the loop when the last response still asks for tools. *)
Lemma finalize_tool_use (self : AIGenerator) (bp : ApiParams) (st : LoopVars)
    (w : World) :
  requests_tool_use (current_response st) = true ->
  let fp := final_params self bp (loop_messages st) in
  finalize self bp st w =
  match fst (messages_create (client w) fp) with
  | Answer r =>
      match content0_text r with
      | Return t => (Return t, after_call w fp)
      | Raise e =>
          (Return apology,
           printed (after_call w fp)
             ("Error in final response generation: " ++ exn_msg e)%string)
      | OutOfFuel => (OutOfFuel, after_call w fp)
      end
  | Failure e =>
      (Return apology,
       printed (after_call w fp)
         ("Error in final response generation: " ++ exn_msg e)%string)
  end.
Proof.
  intros Ht fp. unfold finalize. rewrite Ht. simpl.
  unfold try_except, bind. rewrite create_eq. fold fp.
  destruct (fst (messages_create (client w) fp)) as [r|e]; [|reflexivity].
  unfold eval. destruct (content0_text r); reflexivity.
Qed.

Lemma finalize_plain (self : AIGenerator) (bp : ApiParams) (st : LoopVars)
    (w : World) :
  requests_tool_use (current_response st) = false ->
  finalize self bp st w = (content0_text (current_response st), w).
Proof.
  intro Ht. unfold finalize. now rewrite Ht.
Qed.

Lemma content0_text_in_fuel (r : Response) : content0_text r <> OutOfFuel.
Proof.
  unfold content0_text. destruct (content r) as [|[t|id name input] rest];
    discriminate.
Qed.

(** *** Bounds on calls and rounds *)

Lemma finalize_bounds (self : AIGenerator) (bp : ApiParams) (st : LoopVars)
    (w : World) :
  exists calls,
    fst (finalize self bp st w) <> OutOfFuel
    /\ api_log (snd (finalize self bp st w)) = api_log w ++ calls
    /\ round_log (snd (finalize self bp st w)) = round_log w
    /\ (length calls <= 1)%nat.
Proof.
  destruct (requests_tool_use (current_response st)) eqn:Ht.
  - rewrite finalize_tool_use by exact Ht. cbv zeta.
    set (fp := final_params self bp (loop_messages st)).
    exists [(fp, fst (messages_create (client w) fp))].
    unfold after_call, printed.
    destruct (fst (messages_create (client w) fp)) as [r|e].
    + pose proof (content0_text_in_fuel r) as Hr.
      destruct (content0_text r); simpl; repeat split;
        try discriminate; try congruence; auto.
    + simpl. repeat split; try discriminate; auto.
  - rewrite finalize_plain by exact Ht. exists []. simpl.
    rewrite app_nil_r. repeat split; auto. apply content0_text_in_fuel.
Qed.

(** From the head of the loop on: the budget is never exhausted, at most
    [max_rounds - round_count - 1] continuation calls and one final call are
    made, and [round_count] only takes values up to [max_rounds]. *)
Lemma handle_from_bounds (self : AIGenerator) (bp : ApiParams) (max_rounds : Z) :
  forall (fuel : nat) (st : LoopVars) (w : World),
    (Z.to_nat (max_rounds - round_count st) <= fuel)%nat ->
    exists calls rounds,
      fst (handle_from fuel self bp max_rounds st w) <> OutOfFuel
      /\ api_log (snd (handle_from fuel self bp max_rounds st w))
         = api_log w ++ calls
      /\ round_log (snd (handle_from fuel self bp max_rounds st w))
         = round_log w ++ rounds
      /\ (length calls <= S (Z.to_nat (max_rounds - round_count st - 1)))%nat
      /\ Forall (fun n => (round_count st < n <= max_rounds)%Z) rounds.
Proof.
  induction fuel as [|fuel IH]; intros st w Hfuel;
    destruct (loop_cond max_rounds st w) eqn:Hc.
  - apply loop_cond_true in Hc as [Hr _]. lia.
  - rewrite handle_from_exit by exact Hc.
    destruct (finalize_bounds self bp st w) as (calls & Hf & Ha & Hl & Hn).
    exists calls, []. rewrite app_nil_r. repeat split; auto; lia.
  - destruct (loop_cond_true _ _ _ Hc) as (Hr & Ht & m & Hm).
    rewrite handle_from_step by exact Hc.
    rewrite (loop_body_eq self bp max_rounds st w m Hm). cbv zeta.
    set (reqs := tool_requests (content (current_response st))).
    set (msgs := round_messages st (fst (dispatch_all m reqs))).
    set (n := (round_count st + 1)%Z).
    set (w1 := after_dispatch w m reqs n).
    destruct (n >=? max_rounds)%Z eqn:Hn.
    + destruct (finalize_bounds self bp
                  (mkLoopVars msgs (current_response st) n) w1)
        as (calls & Hf & Ha & Hl & Hk).
      exists calls, [n]. rewrite Ha, Hl. simpl.
      repeat split; auto; try lia.
      constructor; [|constructor]. apply Z.geb_le in Hn. lia.
    + assert (Hlt : (n < max_rounds)%Z).
      { destruct (Z.geb_spec n max_rounds); [discriminate | lia]. }
      destruct (fst (messages_create (client w) (next_params self bp msgs)))
        as [r|e] eqn:Hreply.
      * destruct (IH (mkLoopVars msgs r n) (after_call w1 (next_params self bp msgs)))
          as (calls & rounds & Hf & Ha & Hl & Hk & Hall).
        { simpl. lia. }
        exists ((next_params self bp msgs,
                 fst (messages_create (client w) (next_params self bp msgs)))
                :: calls), (n :: rounds).
        rewrite Ha, Hl. simpl in *. rewrite <- !app_assoc. simpl.
        repeat split; auto; try lia.
        constructor; [lia|].
        eapply Forall_impl; [|exact Hall]. simpl. intros; lia.
      * destruct (finalize_bounds self bp
                    (mkLoopVars msgs (current_response st) n)
                    (printed (after_call w1 (next_params self bp msgs))
                       ("Error in tool execution round " ++ str_of_int n ++ ": "
                        ++ exn_msg e)%string))
          as (calls & Hf & Ha & Hl & Hk).
        exists ((next_params self bp msgs,
                 fst (messages_create (client w) (next_params self bp msgs)))
                :: calls), [n].
        rewrite Ha, Hl. simpl. rewrite <- !app_assoc. simpl.
        repeat split; auto; try lia.
        constructor; [lia|constructor].
  - rewrite handle_from_exit by exact Hc.
    destruct (finalize_bounds self bp st w) as (calls & Hf & Ha & Hl & Hn).
    exists calls, []. rewrite app_nil_r. repeat split; auto; lia.
Qed.

(** *** The two methods, step by step *)

Lemma _handle_tool_execution_eq (self : AIGenerator) (r : Response)
    (bp : ApiParams) (max_rounds : Z) (w : World) :
  _handle_tool_execution self r bp max_rounds w =
  handle_from (Z.to_nat max_rounds) self bp max_rounds
    (mkLoopVars (messages bp) r 0) (counted w 0).
Proof. reflexivity. Qed.

Lemma generate_response_rounds_eq (max_rounds : Z) (self : AIGenerator)
    (query : string) (history : option string) (tls : option (list ToolSchema))
    (w : World) :
  let p := initial_params self query history tls in
  generate_response_rounds max_rounds self query history tls w =
  match fst (messages_create (client w) p) with
  | Answer r =>
      if requests_tool_use r && given w then
        _handle_tool_execution self r p max_rounds (after_call w p)
      else (content0_text r, after_call w p)
  | Failure e => (Raise e, after_call w p)
  end.
Proof.
  intro p. unfold generate_response_rounds, bind. fold p. rewrite create_eq.
  destruct (fst (messages_create (client w) p)) as [r|e]; [|reflexivity].
  unfold tool_manager_given, given. simpl.
  destruct (requests_tool_use r && _); reflexivity.
Qed.

(** A whole query, whatever [max_rounds] is: the first call, then the
    handler's continuation calls and final call. *)
Lemma generate_response_rounds_bounds (max_rounds : Z) (self : AIGenerator)
    (query : string) (history : option string) (tls : option (list ToolSchema))
    (c : C) (tool_manager : option M) :
  let run :=
    generate_response_rounds max_rounds self query history tls
      (init_world c tool_manager) in
  fst run <> OutOfFuel
  /\ (length (api_log (snd run)) <= 2 + Z.to_nat (max_rounds - 1))%nat
  /\ Forall (fun n => (n <= Z.max 0 max_rounds)%Z) (round_log (snd run)).
Proof.
  cbv zeta. rewrite generate_response_rounds_eq. cbv zeta.
  set (p := initial_params self query history tls).
  set (w := init_world c tool_manager).
  destruct (fst (messages_create (client w) p)) as [r|e];
    [|simpl; repeat split; [discriminate | lia | constructor]].
  destruct (requests_tool_use r && given w).
  - rewrite _handle_tool_execution_eq.
    destruct (handle_from_bounds self p max_rounds (Z.to_nat max_rounds)
                (mkLoopVars (messages p) r 0) (counted (after_call w p) 0))
      as (calls & rounds & Hf & Ha & Hl & Hk & Hall).
    { simpl. lia. }
    rewrite Ha, Hl. simpl in *. repeat split.
    + exact Hf.
    + rewrite ?length_app; simpl; lia.
    + constructor; [lia|].
      eapply Forall_impl; [|exact Hall]. simpl. intros; lia.
  - simpl. repeat split.
    + apply content0_text_in_fuel.
    + lia.
    + constructor.
Qed.

(** C1: every query, which [generate_response] runs with the maximum of
    R = 2 rounds, keeps its round counter at R or below and issues at most
    R + 1 calls to the Generation Client, however often the model asks for
    tools, and it ends (the loop budget of the model is never exhausted);
    the same holds of the orchestration run with any maximum R of at least
    one round. *)
Theorem C1_round_counter_and_calls_bounded (self : AIGenerator)
    (query : string) (history : option string) (tls : option (list ToolSchema))
    (c : C) (tool_manager : option M) :
  (let run :=
     generate_response self query history tls (init_world c tool_manager) in
   fst run <> OutOfFuel
   /\ (Z.of_nat (length (api_log (snd run))) <= 2 + 1)%Z
   /\ Forall (fun n => (n <= 2)%Z) (round_log (snd run)))
  /\ (forall R : Z,
        (1 <= R)%Z ->
        let run :=
          generate_response_rounds R self query history tls
            (init_world c tool_manager) in
        fst run <> OutOfFuel
        /\ (Z.of_nat (length (api_log (snd run))) <= R + 1)%Z
        /\ Forall (fun n => (n <= R)%Z) (round_log (snd run))).
Proof.
  assert (Hany : forall R : Z,
            (1 <= R)%Z ->
            let run :=
              generate_response_rounds R self query history tls
                (init_world c tool_manager) in
            fst run <> OutOfFuel
            /\ (Z.of_nat (length (api_log (snd run))) <= R + 1)%Z
            /\ Forall (fun n => (n <= R)%Z) (round_log (snd run))).
  { intros R HR run.
    destruct (generate_response_rounds_bounds R self query history tls c
                tool_manager) as (Hf & Hcalls & Hrounds).
    fold run in Hf, Hcalls, Hrounds. repeat split.
    - exact Hf.
    - lia.
    - eapply Forall_impl; [|exact Hrounds]. simpl. intros; lia. }
  split; [|exact Hany].
  unfold generate_response. apply (Hany 2%Z). lia.
Qed.

(** The public operation: never more than two rounds and three calls. *)
Lemma generate_response_bounds (self : AIGenerator) (query : string)
    (history : option string) (tls : option (list ToolSchema))
    (c : C) (tool_manager : option M) :
  let run := generate_response self query history tls (init_world c tool_manager) in
  fst run <> OutOfFuel
  /\ (length (api_log (snd run)) <= 3)%nat
  /\ Forall (fun n => (n <= 2)%Z) (round_log (snd run)).
Proof.
  exact (generate_response_rounds_bounds 2 self query history tls c tool_manager).
Qed.

(** *** The answer that ends a query *)

Lemma head_logged_asking (st : LoopVars) (w : World) :
  head_logged st w ->
  requests_tool_use (current_response st) = true ->
  all_asking (api_log w).
Proof.
  intros (pre & p & Hlog & Hpre) Ht. unfold all_asking in *. rewrite Hlog.
  apply Forall_app. split; [exact Hpre|].
  constructor; [|constructor]. unfold plain_answer. simpl. now rewrite Ht.
Qed.

Lemma finalize_settled_asking (self : AIGenerator) (bp : ApiParams)
    (st : LoopVars) (w : World) :
  requests_tool_use (current_response st) = true ->
  all_asking (api_log w) ->
  settled (fst (finalize self bp st w)) (api_log (snd (finalize self bp st w))).
Proof.
  intros Ht Hlog. rewrite finalize_tool_use by exact Ht. cbv zeta.
  set (fp := final_params self bp (loop_messages st)).
  exists (api_log w), (fp, fst (messages_create (client w) fp)).
  destruct (fst (messages_create (client w) fp)) as [r|e] eqn:Hreply.
  - destruct (content0_text r) as [t| |] eqn:Htext; simpl; rewrite Hreply;
      (repeat split; [assumption|]); intros r' t' Hr' _ Ht';
      injection Hr' as <-; congruence.
  - simpl. rewrite Hreply. repeat split; [assumption|]. discriminate.
Qed.

Lemma finalize_settled (self : AIGenerator) (bp : ApiParams)
    (st : LoopVars) (w : World) :
  head_logged st w ->
  settled (fst (finalize self bp st w)) (api_log (snd (finalize self bp st w))).
Proof.
  intro Hhead. destruct (requests_tool_use (current_response st)) eqn:Ht.
  - apply finalize_settled_asking; [exact Ht|].
    now apply (head_logged_asking st).
  - rewrite finalize_plain by exact Ht. simpl.
    destruct Hhead as (pre & p & Hlog & Hpre).
    exists pre, (p, Answer (current_response st)).
    repeat split; try assumption.
    simpl. intros r t Hr _ Htext. injection Hr as <-. exact Htext.
Qed.

Lemma handle_from_settled (self : AIGenerator) (bp : ApiParams) (max_rounds : Z) :
  forall (fuel : nat) (st : LoopVars) (w : World),
    (Z.to_nat (max_rounds - round_count st) <= fuel)%nat ->
    head_logged st w ->
    settled (fst (handle_from fuel self bp max_rounds st w))
            (api_log (snd (handle_from fuel self bp max_rounds st w))).
Proof.
  induction fuel as [|fuel IH]; intros st w Hfuel Hhead;
    destruct (loop_cond max_rounds st w) eqn:Hc;
    try (rewrite handle_from_exit by exact Hc; now apply finalize_settled).
  - apply loop_cond_true in Hc as [Hr _]. lia.
  - destruct (loop_cond_true _ _ _ Hc) as (Hr & Ht & m & Hm).
    pose proof (head_logged_asking st w Hhead Ht) as Hlog.
    rewrite handle_from_step by exact Hc.
    rewrite (loop_body_eq self bp max_rounds st w m Hm). cbv zeta.
    set (reqs := tool_requests (content (current_response st))).
    set (msgs := round_messages st (fst (dispatch_all m reqs))).
    set (n := (round_count st + 1)%Z).
    set (w1 := after_dispatch w m reqs n).
    destruct (n >=? max_rounds)%Z eqn:Hn.
    + apply finalize_settled_asking; assumption.
    + assert (Hlt : (n < max_rounds)%Z).
      { destruct (Z.geb_spec n max_rounds); [discriminate | lia]. }
      destruct (fst (messages_create (client w) (next_params self bp msgs)))
        as [r|e] eqn:Hreply.
      * apply IH; [simpl; lia|].
        exists (api_log w), (next_params self bp msgs). simpl.
        rewrite Hreply. split; [reflexivity | exact Hlog].
      * apply finalize_settled_asking; [exact Ht|]. simpl.
        unfold all_asking. apply Forall_app. split; [exact Hlog|].
        constructor; [|constructor]. unfold plain_answer. simpl.
        now rewrite Hreply.
Qed.

Lemma generate_response_rounds_settled (max_rounds : Z) (self : AIGenerator)
    (query : string) (history : option string) (tls : option (list ToolSchema))
    (c : C) (tool_manager : option M) :
  let run :=
    generate_response_rounds max_rounds self query history tls
      (init_world c tool_manager) in
  settled (fst run) (api_log (snd run)).
Proof.
  cbv zeta. rewrite generate_response_rounds_eq. cbv zeta.
  set (p := initial_params self query history tls).
  set (w := init_world c tool_manager).
  destruct (fst (messages_create (client w) p)) as [r|e] eqn:Hreply.
  - destruct (requests_tool_use r && given w).
    + rewrite _handle_tool_execution_eq.
      apply handle_from_settled; [simpl; lia|].
      exists [], p. unfold counted, after_call. rewrite Hreply.
      split; [reflexivity|constructor].
    + exists [], (p, Answer r). unfold after_call. rewrite Hreply.
      repeat split; [constructor|].
      intros r' t Hr' _ Htext. injection Hr' as <-. exact Htext.
  - exists [], (p, Failure e). unfold after_call. rewrite Hreply.
    repeat split; [constructor|]. discriminate.
Qed.

(** C5: if the answer to the k-th call of a query requests no tool use, the
    query makes exactly k calls to the Generation Client and returns the
    text of that answer unchanged. *)
Theorem C5_plain_answer_at_round_k_ends_query (max_rounds : Z)
    (self : AIGenerator) (query : string) (history : option string)
    (tls : option (list ToolSchema)) (c : C) (tool_manager : option M)
    (k : nat) (p : ApiParams) (r : Response) (t : string) :
  let run :=
    generate_response_rounds max_rounds self query history tls
      (init_world c tool_manager) in
  (1 <= k)%nat ->
  nth_error (api_log (snd run)) (k - 1) = Some (p, Answer r) ->
  requests_tool_use r = false ->
  content0_text r = Return t ->
  length (api_log (snd run)) = k /\ fst run = Return t.
Proof.
  intros run Hk Hnth Hplain Htext.
  destruct (generate_response_rounds_settled max_rounds self query history tls
              c tool_manager) as (pre & last & Hlog & Hpre & Hlast).
  fold run in Hlog, Hlast. rewrite Hlog in *.
  destruct (Nat.lt_ge_cases (k - 1) (length pre)) as [Hin|Hout].
  - rewrite nth_error_app1 in Hnth by exact Hin.
    apply nth_error_In in Hnth.
    unfold all_asking in Hpre. rewrite Forall_forall in Hpre.
    specialize (Hpre _ Hnth). unfold plain_answer in Hpre. simpl in Hpre.
    rewrite Hplain in Hpre. discriminate.
  - rewrite nth_error_app2 in Hnth by exact Hout.
    destruct (k - 1 - length pre)%nat as [|j] eqn:Hj.
    + simpl in Hnth. injection Hnth as ->. split.
      * rewrite length_app. simpl. lia.
      * now apply (Hlast r t).
    + simpl in Hnth. destruct j; discriminate.
Qed.

(** *** One round *)

(** C2: in a round every tool call requested by the response is
    dispatched, one after the other in the order of the response, and gets
    exactly one result carrying its id; for a response that holds at least
    one request the transcript grows by one assistant turn holding the
    response and then by one turn with all results of the batch (the guard
    of line 150 lets a response without any request add the assistant turn
    only); the round counter goes up by one for the batch; no call to the
    Generation Client is made in between, and the continuation call, when
    one follows, carries this transcript. *)
Theorem C2_round_dispatches_batch_in_order (self : AIGenerator)
    (bp : ApiParams) (max_rounds : Z) (st : LoopVars) (w : World) (m : M) :
  manager w = Some m ->
  let reqs := tool_requests (content (current_response st)) in
  let results := fst (dispatch_all m reqs) in
  let assistant_turn :=
    mkMessage "assistant" (Blocks (content (current_response st))) in
  let result_turn := mkMessage "user" (ToolResults results) in
  exists flow w',
    loop_body self bp max_rounds st w = (Return flow, w')
    /\ map tool_use_id results = map call_id reqs
    /\ tool_log w'
       = tool_log w ++ map (fun r => (call_name r, call_arguments r)) reqs
    /\ manager w' = Some (snd (dispatch_all m reqs))
    /\ (reqs <> [] ->
        loop_messages (flow_vars flow)
        = loop_messages st ++ [assistant_turn; result_turn])
    /\ (reqs = [] ->
        loop_messages (flow_vars flow) = loop_messages st ++ [assistant_turn])
    /\ round_count (flow_vars flow) = (round_count st + 1)%Z
    /\ round_log w' = round_log w ++ [(round_count st + 1)%Z]
    /\ (api_log w' = api_log w
        \/ exists reply,
             api_log w'
             = api_log w
               ++ [(next_params self bp (loop_messages (flow_vars flow)), reply)]).
Proof.
  intros Hm reqs results assistant_turn result_turn.
  rewrite (loop_body_eq self bp max_rounds st w m Hm). cbv zeta.
  fold reqs results.
  assert (Hfull : reqs <> [] ->
            round_messages st results
            = loop_messages st ++ [assistant_turn; result_turn]).
  { intro Hne. unfold round_messages, result_turn.
    destruct results as [|res rest] eqn:Hres; [|reflexivity].
    pose proof (dispatch_all_length m reqs) as Hlen. fold results in Hlen.
    rewrite Hres in Hlen. destruct reqs; [congruence | discriminate]. }
  assert (Hnone : reqs = [] ->
            round_messages st results = loop_messages st ++ [assistant_turn]).
  { intro He. unfold round_messages, results. now rewrite He. }
  pose proof (dispatch_all_ids m reqs) as Hids.
  destruct (round_count st + 1 >=? max_rounds)%Z.
  - eexists _, _. split; [reflexivity|]. simpl.
    repeat split; auto.
  - destruct (fst (messages_create (client w)
                     (next_params self bp (round_messages st results))))
      as [r|e] eqn:Hreply;
      (eexists _, _; split; [reflexivity|]); simpl;
      (repeat split; auto); right; eexists; reflexivity.
Qed.

(** *** Failure of a continuation call *)

(** C3: when the continuation call made after a round fails, the loop stops
    there (no further round, no further dispatch), the transcript built so
    far, results of the round included, is kept, exactly one further call is
    made, with that transcript and without tools, and the query returns:
    the fixed apology if that call fails too, the text of its answer if it
    has one. *)
Theorem C3_failed_continuation_one_fallback_call (fuel : nat)
    (self : AIGenerator) (bp : ApiParams) (max_rounds : Z) (st : LoopVars)
    (w : World) (m : M) (e : Exn) :
  manager w = Some m ->
  requests_tool_use (current_response st) = true ->
  (round_count st + 1 < max_rounds)%Z ->
  let reqs := tool_requests (content (current_response st)) in
  let msgs := round_messages st (fst (dispatch_all m reqs)) in
  let np := next_params self bp msgs in
  let fp := final_params self bp msgs in
  fst (messages_create (client w) np) = Failure e ->
  let c1 := snd (messages_create (client w) np) in
  let run := handle_from (S fuel) self bp max_rounds st w in
  api_log (snd run)
  = api_log w ++ [(np, Failure e); (fp, fst (messages_create c1 fp))]
  /\ messages fp = msgs /\ tools fp = None /\ tool_choice fp = None
  /\ round_log (snd run) = round_log w ++ [(round_count st + 1)%Z]
  /\ tool_log (snd run)
     = tool_log w ++ map (fun r => (call_name r, call_arguments r)) reqs
  /\ (forall e', fst (messages_create c1 fp) = Failure e' ->
      fst run
      = Return "I apologize, but I encountered an error while generating the final response.")
  /\ (forall r t, fst (messages_create c1 fp) = Answer r ->
      content0_text r = Return t -> fst run = Return t)
  /\ exists text, fst run = Return text.
Proof.
  intros Hm Ht Hlt reqs msgs np fp Hfail c1 run. subst run.
  rewrite handle_from_step by (apply (loop_cond_intro _ _ _ m); auto; lia).
  rewrite (loop_body_eq self bp max_rounds st w m Hm). cbv zeta.
  fold reqs msgs np.
  destruct (round_count st + 1 >=? max_rounds)%Z eqn:Hge.
  { apply Z.geb_le in Hge. lia. }
  rewrite Hfail. rewrite finalize_tool_use by exact Ht. cbv zeta.
  cbn [loop_messages client printed after_call after_dispatch].
  fold fp c1.
  destruct (fst (messages_create c1 fp)) as [r|e2] eqn:Hfinal.
  - assert (Hne := content0_text_in_fuel r).
    destruct (content0_text r) as [t|e3|] eqn:Htext; [| |congruence];
      simpl; fold c1; rewrite Hfail, Hfinal, <- app_assoc; simpl;
      (repeat split; auto; try discriminate);
      try (intros r' t' Hr' Ht'; injection Hr' as <-; congruence);
      eexists; reflexivity.
  - simpl. fold c1. rewrite Hfail, Hfinal, <- app_assoc. simpl.
    repeat split; auto; try discriminate. eexists; reflexivity.
Qed.

(** *** Reaching the maximum *)

(** C4: when the round that is dispatched brings the round counter to the
    configured maximum while the response still asks for tools, exactly one
    more call is made, with the whole transcript (results of that round
    included) and neither tools nor tool choice attached, and the text of
    its answer is what the query returns. *)
Theorem C4_forced_final_call_at_max_rounds (fuel : nat) (self : AIGenerator)
    (bp : ApiParams) (max_rounds : Z) (st : LoopVars) (w : World) (m : M) :
  manager w = Some m ->
  requests_tool_use (current_response st) = true ->
  (round_count st + 1)%Z = max_rounds ->
  let reqs := tool_requests (content (current_response st)) in
  let msgs := round_messages st (fst (dispatch_all m reqs)) in
  let fp := final_params self bp msgs in
  let run := handle_from (S fuel) self bp max_rounds st w in
  api_log (snd run) = api_log w ++ [(fp, fst (messages_create (client w) fp))]
  /\ messages fp = msgs /\ tools fp = None /\ tool_choice fp = None
  /\ round_log (snd run) = round_log w ++ [max_rounds]
  /\ tool_log (snd run)
     = tool_log w ++ map (fun r => (call_name r, call_arguments r)) reqs
  /\ (forall r t, fst (messages_create (client w) fp) = Answer r ->
      content0_text r = Return t -> fst run = Return t)
  /\ exists text, fst run = Return text.
Proof.
  intros Hm Ht Hmax reqs msgs fp run. subst run.
  rewrite handle_from_step by (apply (loop_cond_intro _ _ _ m); auto; lia).
  rewrite (loop_body_eq self bp max_rounds st w m Hm). cbv zeta.
  fold reqs msgs.
  destruct (round_count st + 1 >=? max_rounds)%Z eqn:Hge.
  2:{ destruct (Z.geb_spec (round_count st + 1) max_rounds);
        [discriminate | lia]. }
  rewrite finalize_tool_use by exact Ht. cbv zeta.
  cbn [loop_messages client after_dispatch]. fold fp.
  destruct (fst (messages_create (client w) fp)) as [r|e] eqn:Hfinal.
  - assert (Hne := content0_text_in_fuel r).
    destruct (content0_text r) as [t|e3|] eqn:Htext; [| |congruence];
      simpl; rewrite Hfinal, Hmax;
      (repeat split; auto);
      try (intros r' t' Hr' Ht'; injection Hr' as <-; congruence);
      eexists; reflexivity.
  - simpl. rewrite Hfinal, Hmax. repeat split; auto; try discriminate.
    eexists; reflexivity.
Qed.

(** *** No tool manager *)

(** C10: when the first answer asks for tools and no tool manager was
    passed, the query makes that one call only and dispatches nothing; what
    it returns is the [text] of the first content block of that answer (and
    it raises what reading that attribute raises when the block has none). *)
Theorem C10_tool_use_without_manager_returns_first_text (self : AIGenerator)
    (query : string) (history : option string) (tls : option (list ToolSchema))
    (c : C) (r : Response) :
  let p := initial_params self query history tls in
  fst (messages_create c p) = Answer r ->
  requests_tool_use r = true ->
  let run :=
    generate_response self query history tls (init_world (M:=M) c None) in
  fst run = content0_text r
  /\ (forall t rest, content r = TextBlock t :: rest -> fst run = Return t)
  /\ api_log (snd run) = [(p, Answer r)]
  /\ tool_log (snd run) = []
  /\ round_log (snd run) = [].
Proof.
  intros p Hreply Ht run. subst run. unfold generate_response.
  rewrite generate_response_rounds_eq. cbv zeta. fold p.
  cbn [client init_world]. rewrite Hreply, Ht.
  unfold given, after_call. simpl. rewrite Hreply.
  repeat split; auto.
  intros t rest Hc. unfold content0_text. now rewrite Hc.
Qed.

End OrchestratorFacts.


(** ** Facts about the content search tool and the registry *)

Section RegistryFacts.

Variable backend : SearchBackend.

Lemma execute_no_match (query : string) (course : option string)
    (lesson : option Z) :
  matches (search backend query course lesson) = [] ->
  error (search backend query course lesson) = None ->
  ContentSearch.execute backend query course lesson
  = mkToolOutput (ContentSearch.empty_message course lesson) [].
Proof.
  intros Hm He. unfold ContentSearch.execute. now rewrite He, Hm.
Qed.

Lemma execute_citations (query : string) (course : option string)
    (lesson : option Z) :
  error (search backend query course lesson) = None ->
  output_citations (ContentSearch.execute backend query course lesson)
  = map (ContentSearch.citation_of backend)
        (matches (search backend query course lesson)).
Proof.
  intro He. unfold ContentSearch.execute. rewrite He.
  now destruct (matches (search backend query course lesson)).
Qed.

Lemma lookup_unregistered (reg : Registry.t) (name : string) :
  ~ In name (map fst (Registry.registered reg)) ->
  Registry.lookup name reg = None.
Proof.
  unfold Registry.lookup. destruct reg as [table slot]. simpl.
  induction table as [|[n tl] rest IH]; intro Hnot; simpl.
  - reflexivity.
  - destruct (String.eqb_spec n name) as [->|Hne].
    + exfalso. apply Hnot. now left.
    + apply IH. intro Hin. apply Hnot. now right.
Qed.

(** C7: when the backend reports no error and no match, the content search
    tool answers with the template selected by the filters that were
    supplied, and with nothing else. *)
Theorem C7_empty_result_message_by_filters (query : string)
    (course : option string) (lesson : option Z) :
  matches (search backend query course lesson) = [] ->
  error (search backend query course lesson) = None ->
  let text := output_text (ContentSearch.execute backend query course lesson) in
  match course, lesson with
  | None, None => text = "No relevant content found."
  | Some c, None =>
      text = ("No relevant content found in course '" ++ c ++ "'.")%string
  | None, Some n =>
      text = ("No relevant content found in lesson " ++ str_of_int n ++ ".")%string
  | Some c, Some n =>
      text = ("No relevant content found in course '" ++ c ++ "' in lesson "
              ++ str_of_int n ++ ".")%string
  end.
Proof.
  intros Hm He text. subst text. rewrite execute_no_match by assumption.
  destruct course, lesson; reflexivity.
Qed.

(** C8: once the registry has dispatched a call to the content search tool
    whose search gave N matches, its citation slot holds exactly N entries,
    the i-th labelled after the i-th match (course and lesson number, or
    the course alone) and carrying the link the backend resolved for that
    match, or no link when the backend resolved none or the resolution
    raised; resetting the citations then empties the slot. *)
Theorem C8_citation_slot_after_search (reg : Registry.t) (name : string)
    (invalid_arguments : string) (args : Args) (query : string)
    (course : option string) (lesson : option Z) :
  Registry.lookup name reg = Some (ContentSearch.tool backend invalid_arguments) ->
  ContentSearch.decode args = Some (query, course, lesson) ->
  error (search backend query course lesson) = None ->
  let found := matches (search backend query course lesson) in
  let reg' := snd (Registry.dispatch reg name args) in
  length (Registry.getLastCitations reg') = length found
  /\ Registry.getLastCitations reg'
     = map
         (fun m =>
            mkCitation
              match lesson_number m with
              | Some n => (course_title m ++ " - Lesson " ++ str_of_int n)%string
              | None => course_title m
              end
              match get_lesson_link backend (course_title m) (lesson_number m) with
              | inr resolved => resolved
              | inl _ => None
              end)
         found
  /\ Registry.getLastCitations (Registry.resetCitations reg') = [].
Proof.
  intros Hlook Hargs He found reg'. subst reg'.
  unfold Registry.dispatch. rewrite Hlook. simpl. rewrite Hargs.
  unfold Registry.getLastCitations. simpl.
  rewrite execute_citations by exact He. fold found.
  repeat split. apply length_map.
Qed.

End RegistryFacts.

(** C9: dispatching a name that is not registered gives back the text
    [Tool '<name>' not found] with that name, whatever the arguments, and
    leaves the registry as it was; being a function into texts, the
    dispatch raises nothing. *)
Theorem C9_dispatch_of_unregistered_name (reg : Registry.t) (name : string)
    (args : Args) :
  ~ In name (map fst (Registry.registered reg)) ->
  Registry.dispatch reg name args = ("Tool '" ++ name ++ "' not found", reg)%string.
Proof.
  intro Hnot. unfold Registry.dispatch.
  now rewrite (lookup_unregistered reg name Hnot).
Qed.

(** ** The maximum number of rounds *)

(** C6, as amended: the maximum number of rounds defaults to 2 and is a
    parameter of [_handle_tool_execution], which honours the value it is
    given; [generate_response] has no such parameter and always hands the
    handler the value 2. *)
Theorem C6_max_rounds_is_two_in_generate_response :
  default_max_rounds = 2%Z
  /\ (forall (C M : Type) (HC : GenerationClient C) (HM : ToolManager M)
        (self : AIGenerator) (query : string) (history : option string)
        (tls : option (list ToolSchema)) (w : @World C M),
        generate_response self query history tls w
        = let p := initial_params self query history tls in
          match fst (messages_create (client w) p) with
          | Answer r =>
              if requests_tool_use r && given w then
                _handle_tool_execution self r p default_max_rounds (after_call w p)
              else (content0_text r, after_call w p)
          | Failure e => (Raise e, after_call w p)
          end)
  /\ round_log
       (snd (_handle_tool_execution demo_generator
               (tool_use_response "call_0" "start") demo_params 1
               (demo_world asking_script)))
     = [0; 1]%Z
  /\ round_log
       (snd (_handle_tool_execution demo_generator
               (tool_use_response "call_0" "start") demo_params 3
               (demo_world asking_script)))
     = [0; 1; 2; 3]%Z.
Proof.
  split; [reflexivity|]. split; [|split; reflexivity].
  intros C M HC HM self query history tls w.
  unfold generate_response. apply generate_response_rounds_eq.
Qed.

(** The public operation does not run with whatever maximum a caller may
    want: against a client that keeps asking for tools it runs two rounds
    and three calls, where a maximum of 1 means one round and two calls. *)
Lemma C6_generate_response_not_configurable :
  ~ (forall R : Z,
       generate_response demo_generator "What is programming?" None None
         (demo_world asking_script)
       = generate_response_rounds R demo_generator "What is programming?"
           None None (demo_world asking_script)).
Proof.
  intro Hall. specialize (Hall 1%Z).
  apply (f_equal (fun run => length (api_log (snd run)))) in Hall.
  vm_compute in Hall. discriminate.
Qed.

(** ** Edge cases *)

(** With a maximum of 0, which [generate_response] never passes, the
    handler runs no round and goes to the final call at once. *)
Lemma zero_rounds_final_call_at_once :
  length
    (api_log
       (snd (_handle_tool_execution demo_generator
               (tool_use_response "call_1" "programming") demo_params 0
               (demo_world [Answer (text_response "Programming is fundamental.")]))))
  = 1%nat.
Proof. reflexivity. Qed.

(** A response whose stop reason asks for tools without holding a request
    adds its assistant turn and no turn of results. *)
Lemma no_result_turn_without_requests :
  requests_tool_use bare_tool_use_response = true
  /\ ~ (exists flow w' results,
          loop_body demo_generator demo_params 2
            (first_round bare_tool_use_response)
            (demo_world [Answer (text_response "Programming is fundamental.")])
          = (Return flow, w')
          /\ loop_messages (flow_vars flow)
             = loop_messages (first_round bare_tool_use_response)
               ++ [mkMessage "assistant" (Blocks (content bare_tool_use_response));
                   mkMessage "user" (ToolResults results)]).
Proof.
  split; [reflexivity|].
  intros (flow & w' & results & Hrun & Hmsgs).
  vm_compute in Hrun. injection Hrun as <- <-.
  vm_compute in Hmsgs. discriminate.
Qed.

(** ** The theorems at work *)

Lemma C1_witness :
  (1 <= 2)%Z
  /\ (Z.of_nat
        (length
           (api_log
              (snd (generate_response_rounds 2 demo_generator
                      "What is programming?" None None
                      (demo_world asking_script)))))
      <= 2 + 1)%Z.
Proof.
  split; [lia|].
  apply (proj2 (C1_round_counter_and_calls_bounded demo_generator
                  "What is programming?" None None asking_script
                  (Some demo_manager)) 2%Z).
  lia.
Defined.

Lemma C2_witness :
  manager (demo_world [Answer (text_response "Programming is fundamental.")])
  = Some demo_manager
  /\ exists flow w',
       loop_body demo_generator demo_params 2
         (first_round (tool_use_response "call_1" "programming"))
         (demo_world [Answer (text_response "Programming is fundamental.")])
       = (Return flow, w')
       /\ round_count (flow_vars flow) = 1%Z
       /\ loop_messages (flow_vars flow)
          = [mkMessage "user" (PlainText "What is programming?");
             mkMessage "assistant"
               (Blocks (content (tool_use_response "call_1" "programming")));
             mkMessage "user"
               (ToolResults
                  [mkToolResult "tool_result" "call_1" "Search results"])]
       /\ tool_log w'
          = [("search_course_content", [("query", VStr "programming")])].
Proof.
  split; [reflexivity|].
  destruct (C2_round_dispatches_batch_in_order demo_generator demo_params 2
              (first_round (tool_use_response "call_1" "programming"))
              (demo_world [Answer (text_response "Programming is fundamental.")])
              demo_manager eq_refl)
    as (flow & w' & Hrun & _ & Htools & _ & Hturns & _ & Hcount & _).
  exists flow, w'. split; [exact Hrun|]. split; [exact Hcount|].
  split; [|exact Htools].
  apply Hturns. discriminate.
Defined.

Lemma C3_witness :
  (0 + 1 < 2)%Z
  /\ fst (handle_from 1 demo_generator demo_params 2
            (first_round (tool_use_response "call_1" "programming"))
            (demo_world [Failure (api_error "overloaded");
                         Failure (api_error "still overloaded")]))
     = Return "I apologize, but I encountered an error while generating the final response.".
Proof.
  split; [lia|].
  pose proof (C3_failed_continuation_one_fallback_call 0 demo_generator
                demo_params 2
                (first_round (tool_use_response "call_1" "programming"))
                (demo_world [Failure (api_error "overloaded");
                             Failure (api_error "still overloaded")])
                demo_manager (api_error "overloaded")) as Hrun.
  specialize (Hrun eq_refl eq_refl ltac:(simpl; lia) eq_refl).
  destruct Hrun as (_ & _ & _ & _ & _ & _ & Hapology & _).
  exact (Hapology (api_error "still overloaded") eq_refl).
Defined.

Lemma C4_witness :
  (1 + 1)%Z = 2%Z
  /\ fst (handle_from 1 demo_generator demo_params 2
            (second_round (tool_use_response "call_2" "concepts"))
            (demo_world [Answer (text_response "Here is an overview.")]))
     = Return "Here is an overview.".
Proof.
  split; [reflexivity|].
  pose proof (C4_forced_final_call_at_max_rounds 0 demo_generator demo_params 2
                (second_round (tool_use_response "call_2" "concepts"))
                (demo_world [Answer (text_response "Here is an overview.")])
                demo_manager) as Hrun.
  specialize (Hrun eq_refl eq_refl eq_refl).
  destruct Hrun as (_ & _ & _ & _ & _ & _ & Htext & _).
  exact (Htext (text_response "Here is an overview.") "Here is an overview."
           eq_refl eq_refl).
Defined.

Lemma C5_witness :
  (1 <= 2)%nat
  /\ length
       (api_log
          (snd (generate_response_rounds 2 demo_generator
                  "What is programming?" None None
                  (demo_world
                     [Answer (tool_use_response "call_1" "programming");
                      Answer (text_response "Programming is fundamental.")]))))
     = 2%nat
  /\ fst (generate_response_rounds 2 demo_generator
            "What is programming?" None None
            (demo_world
               [Answer (tool_use_response "call_1" "programming");
                Answer (text_response "Programming is fundamental.")]))
     = Return "Programming is fundamental.".
Proof.
  split; [lia|].
  eapply (C5_plain_answer_at_round_k_ends_query 2 demo_generator
            "What is programming?" None None
            [Answer (tool_use_response "call_1" "programming");
             Answer (text_response "Programming is fundamental.")]
            (Some demo_manager) 2 _
            (text_response "Programming is fundamental.")
            "Programming is fundamental.").
  - lia.
  - vm_compute. reflexivity.
  - reflexivity.
  - reflexivity.
Defined.

Lemma C7_witness :
  matches (search demo_backend "topic" None (Some 99%Z)) = []
  /\ output_text (ContentSearch.execute demo_backend "topic" None (Some 99%Z))
     = "No relevant content found in lesson 99.".
Proof.
  split; [reflexivity|].
  exact (C7_empty_result_message_by_filters demo_backend "topic" None
           (Some 99%Z) eq_refl eq_refl).
Defined.

Lemma C8_witness :
  error (search demo_backend "test query" None None) = None
  /\ Registry.getLastCitations
       (snd (Registry.dispatch demo_registry "search_course_content"
               [("query", VStr "test query")]))
     = [mkCitation "Course A - Lesson 1" (Some "https://link1.com");
        mkCitation "Course B" None].
Proof.
  split; [reflexivity|].
  destruct (C8_citation_slot_after_search demo_backend demo_registry
              "search_course_content" "Invalid arguments"
              [("query", VStr "test query")] "test query" None None
              eq_refl eq_refl eq_refl)
    as (_ & Hslot & _).
  exact Hslot.
Defined.

Lemma C9_witness :
  ~ In "unknown_tool" (map fst (Registry.registered demo_registry))
  /\ Registry.dispatch demo_registry "unknown_tool" [("query", VStr "test")]
     = ("Tool 'unknown_tool' not found", demo_registry).
Proof.
  assert (Hnot : ~ In "unknown_tool" (map fst (Registry.registered demo_registry))).
  { simpl. intros [Heq|[]]. discriminate Heq. }
  split; [exact Hnot|].
  exact (C9_dispatch_of_unregistered_name demo_registry "unknown_tool"
           [("query", VStr "test")] Hnot).
Defined.

Lemma C10_witness :
  requests_tool_use announced_tool_use_response = true
  /\ fst (generate_response demo_generator "What is programming?" None None
            (init_world (M:=ConstantManager)
               [Answer announced_tool_use_response] None))
     = Return "I will search the course.".
Proof.
  split; [reflexivity|].
  pose proof (C10_tool_use_without_manager_returns_first_text
                (M:=ConstantManager) demo_generator "What is programming?"
                None None [Answer announced_tool_use_response]
                announced_tool_use_response) as Hrun.
  specialize (Hrun eq_refl eq_refl).
  destruct Hrun as (_ & Htext & _).
  exact (Htext "I will search the course." _ eq_refl).
Defined.

(** ** Scenarios of the test-suite *)

(** [test_max_rounds_enforcement_real_tools]: two rounds ask for tools, the
    third call is the forced final one. *)
Example max_rounds_enforcement :
  let run :=
    generate_response demo_generator "What is programming?" None None
      (demo_world
         [Answer (tool_use_response "call_1" "programming");
          Answer (tool_use_response "call_2" "concepts");
          Answer (text_response "Here is an overview.")]) in
  fst run = Return "Here is an overview."
  /\ length (api_log (snd run)) = 3%nat
  /\ round_log (snd run) = [0; 1; 2]%Z
  /\ map (fun call => tools (fst call)) (api_log (snd run))
     = [None; Some []; None].
Proof. vm_compute. repeat split; reflexivity. Qed.

(** [test_sequential_early_termination_real_tools] *)
Example early_termination :
  let run :=
    generate_response demo_generator "What is programming?" None None
      (demo_world
         [Answer (tool_use_response "call_1" "programming");
          Answer (text_response "Programming is fundamental.")]) in
  fst run = Return "Programming is fundamental."
  /\ length (api_log (snd run)) = 2%nat.
Proof. vm_compute. split; reflexivity. Qed.

(** [test_tool_call_message_flow]: the second call carries the query, the
    assistant turn and the turn of results. *)
Example tool_call_message_flow :
  let run :=
    generate_response demo_generator "Test query" None None
      (demo_world
         [Answer (tool_use_response "call_123" "test");
          Answer (text_response "Final response")]) in
  map (fun call => map role (messages (fst call))) (api_log (snd run))
  = [["user"]; ["user"; "assistant"; "user"]]
  /\ tool_log (snd run) = [("search_course_content", [("query", VStr "test")])].
Proof. vm_compute. split; reflexivity. Qed.

(** A continuation call and the final call both fail: the apology. *)
Example both_calls_fail :
  let run :=
    generate_response demo_generator "What is programming?" None None
      (demo_world
         [Answer (tool_use_response "call_1" "programming");
          Failure (api_error "overloaded");
          Failure (api_error "still overloaded")]) in
  fst run = Return apology
  /\ length (api_log (snd run)) = 3%nat
  /\ round_log (snd run) = [0; 1]%Z
  /\ stdout (snd run)
     = ["Error in tool execution round 1: overloaded";
        "Error in final response generation: still overloaded"].
Proof. vm_compute. repeat split; reflexivity. Qed.

(** A first call that fails is not caught. *)
Example first_call_fails :
  fst (generate_response demo_generator "What is programming?" None None
         (demo_world [Failure (api_error "overloaded")]))
  = Raise (api_error "overloaded").
Proof. reflexivity. Qed.

(** An unknown tool is answered in the transcript, the query goes on. *)
Example unknown_tool_embedded :
  let run :=
    generate_response demo_generator "What is programming?" None
      (Some (Registry.getSchemas demo_registry))
      (init_world
         [Answer (mkResponse "tool_use" [ToolUseBlock "call_1" "unknown" []]);
          Answer (text_response "I could not look that up.")]
         (Some demo_registry)) in
  fst run = Return "I could not look that up."
  /\ map (fun call => last (messages (fst call)) (mkMessage "" (PlainText "")))
       (api_log (snd run))
     = [mkMessage "user" (PlainText "What is programming?");
        mkMessage "user"
          (ToolResults
             [mkToolResult "tool_result" "call_1" "Tool 'unknown' not found"])].
Proof. vm_compute. split; reflexivity. Qed.

(** [test_sources_tracking] *)
Example sources_tracking :
  output_citations (ContentSearch.execute demo_backend "test query" None None)
  = [mkCitation "Course A - Lesson 1" (Some "https://link1.com");
     mkCitation "Course B" None].
Proof. reflexivity. Qed.

(** The four tests of empty results. *)
Example empty_result_messages :
  ContentSearch.empty_message None None = "No relevant content found."
  /\ ContentSearch.empty_message (Some "Nonexistent Course") None
     = "No relevant content found in course 'Nonexistent Course'."
  /\ ContentSearch.empty_message None (Some 99%Z)
     = "No relevant content found in lesson 99."
  /\ ContentSearch.empty_message (Some "Test Course") (Some 1%Z)
     = "No relevant content found in course 'Test Course' in lesson 1.".
Proof. repeat split; reflexivity. Qed.

(** [test_successful_search_with_results]: headers and texts, a blank line
    between the matches. *)
Example rendered_matches :
  output_text (ContentSearch.execute demo_backend "test query" None None)
  = ("[Course A - Lesson 1]" ++ nl ++ "Content 1" ++ nl ++ nl
     ++ "[Course B]" ++ nl ++ "Content 2")%string.
Proof. reflexivity. Qed.

(** ** Invariants of a query *)

Section OrchestratorInvariants.

Context {C M : Type} `{GenerationClient C} `{ToolManager M}.

Local Abbreviation World := (@World C M).

(** The handler follows one of the ways of [Run]. *)
Lemma handle_from_Run (self : AIGenerator) (bp : ApiParams) (max_rounds : Z) :
  forall (fuel : nat) (st : LoopVars) (w : World),
    (Z.to_nat (max_rounds - round_count st) <= fuel)%nat ->
    Run self bp max_rounds st w (handle_from fuel self bp max_rounds st w).
Proof.
  induction fuel as [|fuel IH]; intros st w Hfuel;
    destruct (loop_cond max_rounds st w) eqn:Hc;
    try (rewrite handle_from_exit by exact Hc; now apply Run_exit).
  - apply loop_cond_true in Hc as [Hr _]. lia.
  - destruct (loop_cond_true _ _ _ Hc) as (Hr & Ht & m & Hm).
    rewrite handle_from_step by exact Hc.
    rewrite (loop_body_eq self bp max_rounds st w m Hm). cbv zeta.
    destruct (round_count st + 1 >=? max_rounds)%Z eqn:Hn.
    + apply Z.geb_le in Hn. now apply (Run_break self bp max_rounds st w m).
    + assert (Hlt : (round_count st + 1 < max_rounds)%Z).
      { destruct (Z.geb_spec (round_count st + 1) max_rounds);
          [discriminate | lia]. }
      match goal with
      | |- context [fst (messages_create ?c ?p)] =>
          destruct (fst (messages_create c p)) as [r|e] eqn:Hreply
      end.
      * apply (Run_again self bp max_rounds st w m r); auto.
        apply IH. simpl. lia.
      * now apply (Run_fail self bp max_rounds st w m e).
Qed.

Lemma _handle_tool_execution_Run (self : AIGenerator) (r : Response)
    (bp : ApiParams) (max_rounds : Z) (w : World) :
  Run self bp max_rounds (mkLoopVars (messages bp) r 0) (counted w 0)
    (_handle_tool_execution self r bp max_rounds w).
Proof.
  rewrite _handle_tool_execution_eq. apply handle_from_Run. simpl. lia.
Qed.

(** What follows the loop leaves the tool manager, the dispatches and the
    round counter alone, and makes the final call exactly when the response
    at hand asks for tools. *)
Lemma finalize_frame (self : AIGenerator) (bp : ApiParams) (st : LoopVars)
    (w : World) :
  tool_log (snd (finalize self bp st w)) = tool_log w
  /\ round_log (snd (finalize self bp st w)) = round_log w
  /\ manager (snd (finalize self bp st w)) = manager w
  /\ api_log (snd (finalize self bp st w))
     = api_log w
       ++ if requests_tool_use (current_response st) then
            [(final_params self bp (loop_messages st),
              fst (messages_create (client w)
                     (final_params self bp (loop_messages st))))]
          else [].
Proof.
  destruct (requests_tool_use (current_response st)) eqn:Ht.
  - rewrite finalize_tool_use by exact Ht. cbv zeta.
    destruct (fst (messages_create (client w)
                     (final_params self bp (loop_messages st)))) as [r|e] eqn:Hr.
    + destruct (content0_text r); simpl; rewrite ?Hr; auto.
    + simpl. rewrite Hr. auto.
  - rewrite finalize_plain by exact Ht. simpl. rewrite app_nil_r. auto.
Qed.

(** The three ways through a query. *)
Lemma generate_response_rounds_cases (max_rounds : Z) (self : AIGenerator)
    (query : string) (history : option string) (tls : option (list ToolSchema))
    (w : World) :
  let p := initial_params self query history tls in
  let run := generate_response_rounds max_rounds self query history tls w in
  (exists e,
     fst (messages_create (client w) p) = Failure e
     /\ run = (Raise e, after_call w p))
  \/ (exists r,
        fst (messages_create (client w) p) = Answer r
        /\ requests_tool_use r && given w = false
        /\ run = (content0_text r, after_call w p))
  \/ (exists r,
        fst (messages_create (client w) p) = Answer r
        /\ requests_tool_use r = true
        /\ given w = true
        /\ Run self p max_rounds (mkLoopVars (messages p) r 0)
             (counted (after_call w p) 0) run).
Proof.
  intros p run. subst run. rewrite generate_response_rounds_eq. cbv zeta.
  fold p. destruct (fst (messages_create (client w) p)) as [r|e].
  - destruct (requests_tool_use r && given w) eqn:Hb.
    + right. right. exists r. apply andb_prop in Hb as [Ht Hg].
      repeat split; auto. apply _handle_tool_execution_Run.
    + right. left. exists r. auto.
  - left. exists e. auto.
Qed.

(** *** The requests of a query *)

(** From the head of the loop on, the calls made are continuation calls
    built by [next_params], closed by at most one final call built by
    [final_params]. *)
Lemma Run_calls (self : AIGenerator) (bp : ApiParams) (max_rounds : Z)
    (st : LoopVars) (w : World) (res : Result string * World) :
  Run self bp max_rounds st w res ->
  exists conts fin,
    api_log (snd res) = api_log w ++ conts ++ fin
    /\ Forall (fun entry => exists msgs, fst entry = next_params self bp msgs)
         conts
    /\ (fin = []
        \/ exists msgs reply, fin = [(final_params self bp msgs, reply)]).
Proof.
  assert (Hfin : forall (st' : LoopVars) (w' : World),
            exists fin,
              api_log (snd (finalize self bp st' w')) = api_log w' ++ fin
              /\ (fin = []
                  \/ exists msgs reply,
                       fin = [(final_params self bp msgs, reply)])).
  { intros st' w'. destruct (finalize_frame self bp st' w')
      as (_ & _ & _ & Ha). rewrite Ha.
    destruct (requests_tool_use (current_response st')); eexists; split;
      try reflexivity; [right; eauto | now left]. }
  induction 1 as [st w Hc|st w m Hc Hm Hmax|st w m e Hc Hm Hlt Hreply
                  |st w m r res Hc Hm Hlt Hreply Hrun IH].
  - destruct (Hfin st w) as (fin & Ha & Hshape).
    exists [], fin. simpl. auto.
  - destruct (Hfin (round_vars st m) (round_world st w m))
      as (fin & Ha & Hshape).
    exists [], fin. rewrite Ha. simpl. auto.
  - match goal with
    | |- context [finalize self bp ?s ?x] =>
        destruct (Hfin s x) as (fin & Ha & Hshape)
    end.
    eexists [_], fin. rewrite Ha. simpl. rewrite <- app_assoc. simpl.
    repeat split; auto. constructor; [|constructor]. simpl. eauto.
  - destruct IH as (conts & fin & Ha & Hconts & Hshape).
    eexists (_ :: conts), fin. rewrite Ha. simpl. rewrite <- app_assoc. simpl.
    repeat split; auto. constructor; [|exact Hconts]. simpl. eauto.
Qed.

(** X3: every call of a query carries the model of the generator,
    temperature 0, at most 800 tokens, and one and the same system text:
    the system prompt alone when there is no conversation history or an
    empty one, and otherwise the prompt, a blank line, the heading
    [Previous conversation:] and the history. *)
Theorem X3_every_call_same_base_and_system (max_rounds : Z)
    (self : AIGenerator) (query : string) (history : option string)
    (tls : option (list ToolSchema)) (c : C) (tool_manager : option M) :
  Forall
    (fun entry =>
       model (fst entry) = self_model self
       /\ temperature (fst entry) = 0%Z
       /\ max_tokens (fst entry) = 800%Z
       /\ system (fst entry)
          = match history with
            | None | Some ""%string => SYSTEM_PROMPT self
            | Some h =>
                (SYSTEM_PROMPT self ++ nl ++ nl ++ "Previous conversation:"
                 ++ nl ++ h)%string
            end)
    (api_log
       (snd (generate_response_rounds max_rounds self query history tls
               (init_world c tool_manager)))).
Proof.
  set (w := init_world c tool_manager).
  set (p := initial_params self query history tls).
  set (ok := fun entry : ApiParams * Reply => _).
  assert (Hsys : system p
                 = match history with
                   | None | Some ""%string => SYSTEM_PROMPT self
                   | Some h =>
                       (SYSTEM_PROMPT self ++ nl ++ nl
                        ++ "Previous conversation:" ++ nl ++ h)%string
                   end).
  { unfold p, initial_params.
    destruct history as [[|a h]|]; simpl; destruct (nonempty_list tls);
      reflexivity. }
  assert (Hp : model p = self_model self /\ temperature p = 0%Z
               /\ max_tokens p = 800%Z).
  { unfold p, initial_params. destruct (nonempty_list tls); simpl; auto. }
  assert (Hfirst : forall reply, ok (p, reply)).
  { intro reply. unfold ok. cbn [fst]. repeat split; try apply Hp. exact Hsys. }
  assert (Hnext : forall msgs reply, ok (next_params self p msgs, reply)).
  { intros msgs reply. unfold ok. cbn [fst].
    repeat split; try reflexivity. exact Hsys. }
  assert (Hfinal : forall msgs reply, ok (final_params self p msgs, reply)).
  { intros msgs reply. unfold ok. cbn [fst].
    repeat split; try reflexivity. exact Hsys. }
  pose proof (generate_response_rounds_cases max_rounds self query history
                tls w) as Hcases.
  cbv zeta in Hcases. fold p in Hcases. clearbody p ok.
  destruct Hcases as [(e & _ & ->)|[(r & _ & _ & ->)|(r & _ & _ & _ & Hrun)]].
  - simpl. constructor; [apply Hfirst|constructor].
  - simpl. constructor; [apply Hfirst|constructor].
  - destruct (Run_calls _ _ _ _ _ _ Hrun) as (conts & fin & -> & Hconts & Hfin).
    simpl. constructor; [apply Hfirst|].
    apply Forall_app. split.
    + eapply Forall_impl; [|exact Hconts]. simpl.
      intros [q reply] (msgs & Hq). simpl in Hq. subst q. apply Hnext.
    + destruct Hfin as [->|(msgs & reply & ->)]; constructor; [|constructor].
      apply Hfinal.
Qed.


(** *** The transcript *)

Lemma extends_refl (msgs : list Message) : extends msgs msgs.
Proof. exists []. now rewrite app_nil_r. Qed.

Lemma extends_trans (a b c : list Message) :
  extends a b -> extends b c -> extends a c.
Proof.
  intros (t1 & ->) (t2 & ->). exists (t1 ++ t2). now rewrite app_assoc.
Qed.

Lemma round_vars_extends (st : LoopVars) (m : M) :
  extends (loop_messages st) (loop_messages (round_vars st m)).
Proof. unfold round_vars, round_messages. simpl. eexists. reflexivity. Qed.

Lemma StronglySorted_snoc {A : Type} (R : A -> A -> Prop) (l : list A) (a : A) :
  StronglySorted R l -> Forall (fun x => R x a) l -> StronglySorted R (l ++ [a]).
Proof.
  induction 1 as [|x l Hl IH Hx]; intro Hall; simpl.
  - constructor; constructor.
  - inversion Hall as [|? ? Hxa Hla]; subst. constructor.
    + now apply IH.
    + apply Forall_app. split; [exact Hx|]. constructor; [exact Hxa|constructor].
Qed.

(** Logging a call whose transcript continues the one at hand. *)
Lemma transcripts_snoc (log : list (ApiParams * Reply)) (msgs msgs' : list Message)
    (params : ApiParams) (reply : Reply) :
  StronglySorted extends (map (fun entry => messages (fst entry)) log) ->
  Forall (fun entry => extends (messages (fst entry)) msgs) log ->
  extends msgs msgs' ->
  messages params = msgs' ->
  StronglySorted extends
    (map (fun entry => messages (fst entry)) (log ++ [(params, reply)]))
  /\ Forall (fun entry => extends (messages (fst entry)) msgs')
       (log ++ [(params, reply)]).
Proof.
  intros Hsorted Hall Hext Hp.
  assert (Hall' : Forall (fun entry => extends (messages (fst entry)) msgs') log).
  { eapply Forall_impl; [|exact Hall]. simpl. intros entry He.
    now apply (extends_trans _ msgs). }
  split.
  - rewrite map_app. simpl. apply StronglySorted_snoc; [exact Hsorted|].
    rewrite Forall_map, Hp. exact Hall'.
  - apply Forall_app. split; [exact Hall'|].
    constructor; [|constructor]. simpl. rewrite Hp. apply extends_refl.
Qed.

Lemma finalize_transcripts (self : AIGenerator) (bp : ApiParams)
    (st : LoopVars) (w : World) :
  StronglySorted extends (map (fun entry => messages (fst entry)) (api_log w)) ->
  Forall (fun entry => extends (messages (fst entry)) (loop_messages st))
    (api_log w) ->
  StronglySorted extends
    (map (fun entry => messages (fst entry))
       (api_log (snd (finalize self bp st w)))).
Proof.
  intros Hsorted Hall.
  destruct (finalize_frame self bp st w) as (_ & _ & _ & ->).
  destruct (requests_tool_use (current_response st)).
  - eapply transcripts_snoc; eauto using extends_refl.
  - now rewrite app_nil_r.
Qed.

Lemma Run_transcripts_grow (self : AIGenerator) (bp : ApiParams)
    (max_rounds : Z) (st : LoopVars) (w : World)
    (res : Result string * World) :
  Run self bp max_rounds st w res ->
  StronglySorted extends (map (fun entry => messages (fst entry)) (api_log w)) ->
  Forall (fun entry => extends (messages (fst entry)) (loop_messages st))
    (api_log w) ->
  StronglySorted extends
    (map (fun entry => messages (fst entry)) (api_log (snd res))).
Proof.
  induction 1 as [st w Hc|st w m Hc Hm Hmax|st w m e Hc Hm Hlt Hreply
                  |st w m r res Hc Hm Hlt Hreply Hrun IH];
    intros Hsorted Hall.
  - now apply finalize_transcripts.
  - apply finalize_transcripts; [exact Hsorted|]. simpl.
    eapply Forall_impl; [|exact Hall]. simpl. intros entry He.
    eapply extends_trans; [exact He | apply round_vars_extends].
  - destruct (transcripts_snoc (api_log w) (loop_messages st)
                (loop_messages (round_vars st m))
                (next_params self bp (loop_messages (round_vars st m)))
                (fst (messages_create (client w)
                        (next_params self bp (loop_messages (round_vars st m)))))
                Hsorted Hall (round_vars_extends st m) eq_refl)
      as [Hsorted' Hall'].
    apply finalize_transcripts; [exact Hsorted' | exact Hall'].
  - destruct (transcripts_snoc (api_log w) (loop_messages st)
                (loop_messages (round_vars st m))
                (next_params self bp (loop_messages (round_vars st m)))
                (fst (messages_create (client w)
                        (next_params self bp (loop_messages (round_vars st m)))))
                Hsorted Hall (round_vars_extends st m) eq_refl)
      as [Hsorted' Hall'].
    apply IH; [exact Hsorted' | exact Hall'].
Qed.

(** X5: the transcript of a query only grows: the first call carries the
    query as its single user turn, and of any two calls the transcript of
    the later one is that of the earlier one, possibly with turns added at
    its end. *)
Theorem X5_transcript_only_grows (max_rounds : Z) (self : AIGenerator)
    (query : string) (history : option string) (tls : option (list ToolSchema))
    (c : C) (tool_manager : option M) :
  let log :=
    api_log
      (snd (generate_response_rounds max_rounds self query history tls
              (init_world c tool_manager))) in
  (exists first rest,
     log = first :: rest
     /\ messages (fst first) = [mkMessage "user" (PlainText query)])
  /\ StronglySorted extends (map (fun entry => messages (fst entry)) log).
Proof.
  set (w := init_world c tool_manager).
  set (p := initial_params self query history tls).
  assert (Hp : messages p = [mkMessage "user" (PlainText query)]).
  { unfold p, initial_params. now destruct (nonempty_list tls). }
  pose proof (generate_response_rounds_cases max_rounds self query history
                tls w) as Hcases.
  cbv zeta in Hcases. fold p in Hcases. clearbody p. cbv zeta.
  assert (Hone : forall reply,
            StronglySorted extends
              (map (fun entry : ApiParams * Reply => messages (fst entry))
                 [(p, reply)])).
  { intro reply. simpl. constructor; constructor. }
  destruct Hcases as [(e & _ & ->)|[(r & _ & _ & ->)|(r & _ & _ & _ & Hrun)]].
  - split; [simpl; eauto|].
    exact (Hone (fst (messages_create (client w) p))).
  - split; [simpl; eauto|].
    exact (Hone (fst (messages_create (client w) p))).
  - split.
    + destruct (Run_calls _ _ _ _ _ _ Hrun) as (conts & fin & -> & _).
      simpl. eauto.
    + apply (Run_transcripts_grow _ _ _ _ _ _ Hrun).
      * exact (Hone (fst (messages_create (client w) p))).
      * simpl. constructor; [|constructor]. simpl. apply extends_refl.
Qed.

Lemma dispatch_all_types (m : M) (reqs : list ToolCallRequest) :
  Forall (fun res => result_type res = "tool_result") (fst (dispatch_all m reqs)).
Proof.
  revert m. induction reqs as [|req rest IH]; intro m; simpl.
  - constructor.
  - destruct (execute_tool m (call_name req) (call_arguments req)) as [text m1].
    specialize (IH m1). destruct (dispatch_all m1 rest). simpl in *.
    now constructor.
Qed.

Lemma round_vars_Rounds (base : list Message) (st : LoopVars) (m : M) :
  Rounds base (loop_messages st) ->
  Rounds base (loop_messages (round_vars st m)).
Proof.
  intro Hr. unfold round_vars, round_messages. simpl.
  set (reqs := tool_requests (content (current_response st))).
  pose proof (dispatch_all_ids m reqs) as Hids.
  pose proof (dispatch_all_types m reqs) as Htypes.
  pose proof (dispatch_all_length m reqs) as Hlen.
  destruct (fst (dispatch_all m reqs)) as [|res results].
  - apply Rounds_silent; [exact Hr|]. fold reqs.
    destruct reqs; [reflexivity | discriminate].
  - apply Rounds_answered; auto. fold reqs.
    destruct reqs; [discriminate | congruence].
Qed.

Lemma finalize_Rounds (base : list Message) (self : AIGenerator)
    (bp : ApiParams) (st : LoopVars) (w : World) :
  Rounds base (loop_messages st) ->
  Forall (fun entry => Rounds base (messages (fst entry))) (api_log w) ->
  Forall (fun entry => Rounds base (messages (fst entry)))
    (api_log (snd (finalize self bp st w))).
Proof.
  intros Hr Hall.
  destruct (finalize_frame self bp st w) as (_ & _ & _ & ->).
  apply Forall_app. split; [exact Hall|].
  destruct (requests_tool_use (current_response st)); constructor;
    [exact Hr|constructor].
Qed.

Lemma Run_Rounds (base : list Message) (self : AIGenerator) (bp : ApiParams)
    (max_rounds : Z) (st : LoopVars) (w : World)
    (res : Result string * World) :
  Run self bp max_rounds st w res ->
  Rounds base (loop_messages st) ->
  Forall (fun entry => Rounds base (messages (fst entry))) (api_log w) ->
  Forall (fun entry => Rounds base (messages (fst entry))) (api_log (snd res)).
Proof.
  induction 1 as [st w Hc|st w m Hc Hm Hmax|st w m e Hc Hm Hlt Hreply
                  |st w m r res Hc Hm Hlt Hreply Hrun IH];
    intros Hr Hall.
  - now apply finalize_Rounds.
  - apply finalize_Rounds; [now apply round_vars_Rounds | exact Hall].
  - apply finalize_Rounds; [now apply round_vars_Rounds|]. simpl.
    apply Forall_app. split; [exact Hall|].
    constructor; [|constructor]. simpl. now apply round_vars_Rounds.
  - apply IH; simpl; [now apply round_vars_Rounds|].
    apply Forall_app. split; [exact Hall|].
    constructor; [|constructor]. simpl. now apply round_vars_Rounds.
Qed.

(** X6: the transcript of every call of a query is well formed: the user
    turn with the query, then the rounds, each an assistant turn holding a
    response, followed, exactly when that response holds tool-use blocks,
    by one user turn of results of type [tool_result], one per block, in
    the order of the blocks and under their ids. *)
Theorem X6_every_transcript_pairs_requests_with_results (max_rounds : Z)
    (self : AIGenerator) (query : string) (history : option string)
    (tls : option (list ToolSchema)) (c : C) (tool_manager : option M) :
  Forall
    (fun entry =>
       Rounds [mkMessage "user" (PlainText query)] (messages (fst entry)))
    (api_log
       (snd (generate_response_rounds max_rounds self query history tls
               (init_world c tool_manager)))).
Proof.
  set (w := init_world c tool_manager).
  set (p := initial_params self query history tls).
  assert (Hp : messages p = [mkMessage "user" (PlainText query)]).
  { unfold p, initial_params. now destruct (nonempty_list tls). }
  pose proof (generate_response_rounds_cases max_rounds self query history
                tls w) as Hcases.
  cbv zeta in Hcases. fold p in Hcases. clearbody p.
  assert (Hbase : Rounds [mkMessage "user" (PlainText query)] (messages p)).
  { rewrite Hp. constructor. }
  destruct Hcases as [(e & _ & ->)|[(r & _ & _ & ->)|(r & _ & _ & _ & Hrun)]].
  - simpl. constructor; [exact Hbase|constructor].
  - simpl. constructor; [exact Hbase|constructor].
  - apply (Run_Rounds _ _ _ _ _ _ _ Hrun); simpl; [exact Hbase|].
    constructor; [exact Hbase|constructor].
Qed.

(** *** The round counter *)

Lemma count_up_S (n : nat) : count_up (S n) = count_up n ++ [Z.of_nat n].
Proof. unfold count_up. now rewrite seq_S, map_app. Qed.

Lemma Run_round_log (self : AIGenerator) (bp : ApiParams) (max_rounds : Z)
    (st : LoopVars) (w : World) (res : Result string * World) :
  Run self bp max_rounds st w res ->
  forall k : nat,
    round_count st = Z.of_nat k ->
    round_log w = count_up (S k) ->
    exists k' : nat,
      (k <= k')%nat
      /\ round_log (snd res) = count_up (S k')
      /\ (Z.of_nat k' <= Z.max (Z.of_nat k) max_rounds)%Z.
Proof.
  induction 1 as [st w Hc|st w m Hc Hm Hmax|st w m e Hc Hm Hlt Hreply
                  |st w m r res Hc Hm Hlt Hreply Hrun IH];
    intros k Hk Hlog.
  - exists k. destruct (finalize_frame self bp st w) as (_ & -> & _).
    repeat split; auto; lia.
  - apply loop_cond_true in Hc as (Hr & _).
    exists (S k).
    destruct (finalize_frame self bp (round_vars st m) (round_world st w m))
      as (_ & -> & _).
    simpl. rewrite Hlog, Hk, (count_up_S (S k)).
    repeat split; auto; try lia. do 3 f_equal. lia.
  - exists (S k).
    match goal with
    | |- context [finalize self bp ?s ?x] =>
        destruct (finalize_frame self bp s x) as (_ & -> & _)
    end.
    simpl. rewrite Hlog, Hk, (count_up_S (S k)).
    repeat split; auto; try lia. do 3 f_equal. lia.
  - destruct (IH (S k)) as (k' & Hle & Hlog' & Hmax').
    + simpl. lia.
    + simpl. rewrite Hlog, Hk, (count_up_S (S k)). do 3 f_equal. lia.
    + exists k'. repeat split; auto; lia.
Qed.

(** X7: the round counter of a query starts at 0 and goes up by exactly one
    at a time: the values it takes are 0, 1, ..., n for some n that exceeds
    neither the maximum nor, when the maximum is negative, 0; when the
    handler is not entered it takes none. *)
Theorem X7_round_counter_counts_by_one (max_rounds : Z) (self : AIGenerator)
    (query : string) (history : option string) (tls : option (list ToolSchema))
    (c : C) (tool_manager : option M) :
  exists n : nat,
    round_log
      (snd (generate_response_rounds max_rounds self query history tls
              (init_world c tool_manager)))
    = count_up n
    /\ (Z.of_nat n <= Z.max 0 max_rounds + 1)%Z.
Proof.
  set (w := init_world c tool_manager).
  pose proof (generate_response_rounds_cases max_rounds self query history
                tls w) as Hcases.
  cbv zeta in Hcases.
  destruct Hcases as [(e & _ & ->)|[(r & _ & _ & ->)|(r & _ & _ & _ & Hrun)]].
  - exists 0%nat. simpl. split; [reflexivity|lia].
  - exists 0%nat. simpl. split; [reflexivity|lia].
  - destruct (Run_round_log _ _ _ _ _ _ Hrun 0%nat) as (k' & _ & Hlog & Hmax);
      [reflexivity | reflexivity |].
    exists (S k'). split; [exact Hlog|]. simpl in Hmax. lia.
Qed.

(** *** The tool calls *)

Lemma dispatch_all_app (m : M) (a b : list ToolCallRequest) :
  snd (dispatch_all m (a ++ b))
  = snd (dispatch_all (snd (dispatch_all m a)) b).
Proof.
  revert m. induction a as [|req rest IH]; intro m; simpl.
  - reflexivity.
  - destruct (execute_tool m (call_name req) (call_arguments req)) as [text m1].
    specialize (IH m1).
    destruct (dispatch_all m1 (rest ++ b)) as [rs1 m2].
    destruct (dispatch_all m1 rest) as [rs2 m3]. simpl in *. exact IH.
Qed.

Lemma answered_requests_snoc (log : list (ApiParams * Reply)) (params : ApiParams)
    (r : Response) :
  answered_requests (log ++ [(params, Answer r)])
  = answered_requests log ++ tool_requests (content r).
Proof.
  unfold answered_requests. rewrite flat_map_app. simpl. now rewrite app_nil_r.
Qed.

Lemma firstn_length_app {A : Type} (a b : list A) : firstn (length a) (a ++ b) = a.
Proof.
  rewrite firstn_app, firstn_all, Nat.sub_diag. simpl. apply app_nil_r.
Qed.

(** The dispatches and the tool manager once the round of the response at
    hand is run, given what they were at the head of the loop. *)
Lemma round_world_served (st : LoopVars) (w : World) (m m0 : M)
    (pre : list (ApiParams * Reply)) (params : ApiParams) :
  manager w = Some m ->
  tool_log w = map name_and_arguments (answered_requests pre) ->
  manager w = Some (snd (dispatch_all m0 (answered_requests pre))) ->
  tool_log (round_world st w m)
  = map name_and_arguments
      (answered_requests (pre ++ [(params, Answer (current_response st))]))
  /\ manager (round_world st w m)
     = Some (snd (dispatch_all m0
                    (answered_requests
                       (pre ++ [(params, Answer (current_response st))])))).
Proof.
  intros Hm Htools Hmgr. rewrite answered_requests_snoc. simpl. split.
  - rewrite Htools, map_app. reflexivity.
  - rewrite dispatch_all_app. rewrite Hm in Hmgr. injection Hmgr as <-.
    reflexivity.
Qed.

Lemma Run_served (self : AIGenerator) (bp : ApiParams) (max_rounds : Z)
    (st : LoopVars) (w : World) (res : Result string * World) :
  Run self bp max_rounds st w res ->
  forall (pre : list (ApiParams * Reply)) (params : ApiParams) (m0 : M),
    api_log w = pre ++ [(params, Answer (current_response st))] ->
    length (round_log w) = S (length pre) ->
    tool_log w = map name_and_arguments (answered_requests pre) ->
    manager w = Some (snd (dispatch_all m0 (answered_requests pre))) ->
    let served :=
      answered_requests
        (firstn (rounds_run (round_log (snd res))) (api_log (snd res))) in
    tool_log (snd res) = map name_and_arguments served
    /\ manager (snd res) = Some (snd (dispatch_all m0 served)).
Proof.
  unfold rounds_run.
  induction 1 as [st w Hc|st w m Hc Hm Hmax|st w m e Hc Hm Hlt Hreply
                  |st w m r res Hc Hm Hlt Hreply Hrun IH];
    intros pre params m0 Hlog Hrounds Htools Hmgr; cbv zeta.
  - destruct (finalize_frame self bp st w) as (-> & -> & -> & ->).
    rewrite Hrounds, Hlog, <- app_assoc. simpl. rewrite Nat.sub_0_r.
    rewrite firstn_length_app. auto.
  - destruct (finalize_frame self bp (round_vars st m) (round_world st w m))
      as (-> & -> & -> & ->).
    destruct (round_world_served st w m m0 pre params Hm Htools Hmgr)
      as (Ht' & Hm').
    rewrite Ht', Hm'. simpl. rewrite length_app, Hrounds, Hlog. simpl.
    replace (length pre + 1 - 0)%nat
      with (length (pre ++ [(params, Answer (current_response st))]))
      by (rewrite length_app; simpl; lia).
    rewrite firstn_length_app. auto.
  - match goal with
    | |- context [finalize self bp ?s ?x] =>
        destruct (finalize_frame self bp s x) as (-> & -> & -> & ->)
    end.
    destruct (round_world_served st w m m0 pre params Hm Htools Hmgr)
      as (Ht' & Hm').
    simpl in *. rewrite Ht', Hm'. rewrite length_app, Hrounds, Hlog. simpl.
    replace (length pre + 1 - 0)%nat
      with (length (pre ++ [(params, Answer (current_response st))]))
      by (rewrite length_app; simpl; lia).
    rewrite <- !app_assoc.
    rewrite (app_assoc pre), firstn_length_app. auto.
  - destruct (round_world_served st w m m0 pre params Hm Htools Hmgr)
      as (Ht' & Hm').
    apply (IH (pre ++ [(params, Answer (current_response st))])
              (next_params self bp (loop_messages (round_vars st m))) m0).
    + unfold after_call.
      cbn [api_log client round_world after_dispatch current_response].
      rewrite Hlog, Hreply. reflexivity.
    + simpl. rewrite !length_app, Hrounds. simpl. lia.
    + exact Ht'.
    + exact Hm'.
Qed.

(** X8: the tools dispatched in a query are exactly the tool calls requested
    by the answers to its first n calls, n being the number of rounds run,
    in the order of the calls and of the blocks within an answer, each
    dispatched once; and the tool manager ends as these dispatches, one
    after the other, leave it.  Nothing else is ever dispatched. *)
Theorem X8_dispatches_are_the_requests_of_the_rounds (max_rounds : Z)
    (self : AIGenerator) (query : string) (history : option string)
    (tls : option (list ToolSchema)) (c : C) (tool_manager : option M) :
  let run :=
    generate_response_rounds max_rounds self query history tls
      (init_world c tool_manager) in
  let served :=
    answered_requests
      (firstn (rounds_run (round_log (snd run))) (api_log (snd run))) in
  tool_log (snd run) = map name_and_arguments served
  /\ manager (snd run)
     = match tool_manager with
       | Some m => Some (snd (dispatch_all m served))
       | None => None
       end.
Proof.
  set (w := init_world c tool_manager).
  pose proof (generate_response_rounds_cases max_rounds self query history
                tls w) as Hcases.
  cbv zeta in Hcases. cbv zeta.
  destruct Hcases
    as [(e & _ & ->)|[(r & _ & _ & ->)|(r & Hreply & _ & Hg & Hrun)]].
  - simpl. split; [reflexivity | now destruct tool_manager].
  - simpl. split; [reflexivity | now destruct tool_manager].
  - unfold given in Hg. simpl in Hg.
    destruct tool_manager as [m0|]; [|discriminate].
    apply (Run_served _ _ _ _ _ _ Hrun []
             (initial_params self query history tls) m0).
    + unfold counted, after_call. cbn [api_log]. rewrite Hreply. reflexivity.
    + reflexivity.
    + reflexivity.
    + reflexivity.
Qed.

(** *** What a query returns *)

(** What follows the loop when the response at hand asks for tools: the
    final call is logged, nothing is raised, and an answer with a text is
    returned as it is, without a line printed. *)
Lemma finalize_closing (self : AIGenerator) (bp : ApiParams) (st : LoopVars)
    (w : World) :
  requests_tool_use (current_response st) = true ->
  exists reply,
    api_log (snd (finalize self bp st w))
    = api_log w ++ [(final_params self bp (loop_messages st), reply)]
    /\ (exists text, fst (finalize self bp st w) = Return text)
    /\ (forall r t,
          reply = Answer r ->
          content0_text r = Return t ->
          fst (finalize self bp st w) = Return t
          /\ stdout (snd (finalize self bp st w)) = stdout w).
Proof.
  intro Ht. rewrite finalize_tool_use by exact Ht. cbv zeta.
  set (fp := final_params self bp (loop_messages st)).
  exists (fst (messages_create (client w) fp)).
  destruct (fst (messages_create (client w) fp)) as [r|e] eqn:Hreply.
  - assert (Hne := content0_text_in_fuel r).
    destruct (content0_text r) as [t|e'|] eqn:Htext; [| |congruence];
      simpl; rewrite Hreply; (split; [reflexivity|]);
      (split; [eexists; reflexivity|]);
      intros r' t' Hr' Ht'; injection Hr' as <-; split; congruence.
  - simpl. rewrite Hreply. split; [reflexivity|].
    split; [eexists; reflexivity|]. discriminate.
Qed.

Lemma Run_outcome (self : AIGenerator) (bp : ApiParams) (max_rounds : Z)
    (st : LoopVars) (w : World) (res : Result string * World) :
  Run self bp max_rounds st w res ->
  forall (pre : list (ApiParams * Reply)) (params : ApiParams),
    api_log w = pre ++ [(params, Answer (current_response st))] ->
    exists pre' params' reply,
      api_log (snd res) = pre' ++ [(params', reply)]
      /\ (forall e,
            fst res = Raise e ->
            exists r, reply = Answer r /\ content0_text r = Raise e)
      /\ (forall r t,
            reply = Answer r ->
            content0_text r = Return t ->
            fst res = Return t
            /\ (Forall answered (api_log (snd res)) ->
                stdout (snd res) = stdout w)).
Proof.
  assert (Hclose : forall (w0 : World) (st' : LoopVars) (w' : World),
            requests_tool_use (current_response st') = true ->
            (Forall answered (api_log w') -> stdout w' = stdout w0) ->
            exists pre' params' reply,
              api_log (snd (finalize self bp st' w')) = pre' ++ [(params', reply)]
              /\ (forall e,
                    fst (finalize self bp st' w') = Raise e ->
                    exists r, reply = Answer r /\ content0_text r = Raise e)
              /\ (forall r t,
                    reply = Answer r ->
                    content0_text r = Return t ->
                    fst (finalize self bp st' w') = Return t
                    /\ (Forall answered (api_log (snd (finalize self bp st' w'))) ->
                        stdout (snd (finalize self bp st' w')) = stdout w0))).
  { intros w0 st' w' Ht Hquiet.
    destruct (finalize_closing self bp st' w' Ht)
      as (reply & Hlog & (text & Hret) & Htext).
    exists (api_log w'), (final_params self bp (loop_messages st')), reply.
    split; [exact Hlog|]. split.
    - intros e He. congruence.
    - intros r t Hr Hrt. destruct (Htext r t Hr Hrt) as (Hout & Hstd).
      split; [exact Hout|]. intro Hall. rewrite Hstd. apply Hquiet.
      rewrite Hlog in Hall. apply Forall_app in Hall. tauto. }
  induction 1 as [st w Hc|st w m Hc Hm Hmax|st w m e Hc Hm Hlt Hreply
                  |st w m r res Hc Hm Hlt Hreply Hrun IH];
    intros pre params Hlog.
  - destruct (requests_tool_use (current_response st)) eqn:Ht.
    + apply Hclose; auto.
    + rewrite finalize_plain by exact Ht. simpl.
      exists pre, params, (Answer (current_response st)).
      split; [exact Hlog|]. split.
      * intros e He. eauto.
      * intros r t Hr Hrt. injection Hr as <-. auto.
  - apply loop_cond_true in Hc as (_ & Ht & _). apply Hclose; auto.
  - apply loop_cond_true in Hc as (_ & Ht & _). apply Hclose; [exact Ht|].
    simpl. intro Hall. apply Forall_app in Hall as [_ Hall].
    inversion Hall as [|? ? [r Hr] _]; subst.
    unfold round_vars in Hreply. simpl in Hr, Hreply. congruence.
  - destruct (IH (api_log w)
                 (next_params self bp (loop_messages (round_vars st m))))
      as (pre' & params' & reply & Hlog' & Hraise & Htext).
    + unfold after_call.
      cbn [api_log client round_world after_dispatch current_response].
      now rewrite Hreply.
    + exists pre', params', reply. auto.
Qed.

(** X1: the first call of a query is not guarded: when it fails, the
    exception reaches the caller of [generate_response] as it is, no other
    call is made, nothing is dispatched or printed, and the tool manager is
    left as it was. *)
Theorem X1_first_call_failure_reaches_the_caller (self : AIGenerator)
    (query : string) (history : option string) (tls : option (list ToolSchema))
    (c : C) (tool_manager : option M) (e : Exn) :
  let p := initial_params self query history tls in
  fst (messages_create c p) = Failure e ->
  let run :=
    generate_response self query history tls (init_world c tool_manager) in
  fst run = Raise e
  /\ api_log (snd run) = [(p, Failure e)]
  /\ tool_log (snd run) = []
  /\ round_log (snd run) = []
  /\ stdout (snd run) = []
  /\ manager (snd run) = tool_manager.
Proof.
  intros p Hfail run. subst run. unfold generate_response.
  rewrite generate_response_rounds_eq. cbv zeta. fold p.
  cbn [client init_world]. rewrite Hfail.
  unfold after_call. simpl. rewrite Hfail. repeat split; reflexivity.
Qed.

(** X10: whenever the last call of a query is answered by a response with a
    text block in front, the query returns that text unchanged, whatever
    happened before and whatever the stop reason of that answer; and if no
    call of the query failed, nothing was printed. *)
Theorem X10_text_of_the_last_answer_is_returned (max_rounds : Z)
    (self : AIGenerator) (query : string) (history : option string)
    (tls : option (list ToolSchema)) (c : C) (tool_manager : option M)
    (pre : list (ApiParams * Reply)) (params : ApiParams) (r : Response)
    (t : string) :
  let run :=
    generate_response_rounds max_rounds self query history tls
      (init_world c tool_manager) in
  api_log (snd run) = pre ++ [(params, Answer r)] ->
  content0_text r = Return t ->
  fst run = Return t
  /\ (Forall answered (api_log (snd run)) -> stdout (snd run) = []).
Proof.
  set (w := init_world c tool_manager).
  pose proof (generate_response_rounds_cases max_rounds self query history
                tls w) as Hcases.
  cbv zeta in Hcases. cbv zeta.
  destruct Hcases
    as [(e' & Hreply & ->)|[(r' & Hreply & _ & ->)|(r' & Hreply & _ & _ & Hrun)]];
    intros Hlog Htext.
  - exfalso. unfold after_call in Hlog. simpl in Hlog, Hreply.
    rewrite Hreply in Hlog.
    change [(initial_params self query history tls, Failure e')]
      with ([] ++ [(initial_params self query history tls, Failure e')])
      in Hlog.
    apply app_inj_tail in Hlog as [_ Hlast]. discriminate.
  - unfold after_call in Hlog. simpl in Hlog, Hreply.
    rewrite Hreply in Hlog.
    change [(initial_params self query history tls, Answer r')]
      with ([] ++ [(initial_params self query history tls, Answer r')])
      in Hlog.
    apply app_inj_tail in Hlog as [_ Hlast]. injection Hlast as _ ->.
    simpl. auto.
  - destruct (Run_outcome _ _ _ _ _ _ Hrun []
                (initial_params self query history tls))
      as (pre' & params' & reply & Hlog' & _ & Hret).
    + unfold counted, after_call. cbn [api_log]. now rewrite Hreply.
    + rewrite Hlog in Hlog'. apply app_inj_tail in Hlog' as [_ Hlast].
      injection Hlast as _ <-. exact (Hret r t eq_refl Htext).
Qed.

(** *** A maximum that leaves no round *)

(** X9: with a maximum of 0 rounds or less, [_handle_tool_execution] given
    a response that asks for tools runs no round and dispatches nothing: it
    makes the final call at once, on the messages it was given, without
    tools, and returns a text (that of the answer, or the apology). *)
Theorem X9_no_round_when_maximum_is_not_positive (self : AIGenerator)
    (initial_response : Response) (bp : ApiParams) (max_rounds : Z)
    (w : World) :
  (max_rounds <= 0)%Z ->
  requests_tool_use initial_response = true ->
  let run := _handle_tool_execution self initial_response bp max_rounds w in
  let fp := final_params self bp (messages bp) in
  api_log (snd run) = api_log w ++ [(fp, fst (messages_create (client w) fp))]
  /\ tools fp = None /\ tool_choice fp = None
  /\ tool_log (snd run) = tool_log w
  /\ manager (snd run) = manager w
  /\ round_log (snd run) = round_log w ++ [0%Z]
  /\ exists text, fst run = Return text.
Proof.
  intros Hmax Ht run fp. subst run.
  rewrite _handle_tool_execution_eq.
  rewrite handle_from_exit.
  2:{ unfold loop_cond. simpl.
      destruct (Z.ltb_spec 0 max_rounds); [lia | reflexivity]. }
  destruct (finalize_frame self bp (mkLoopVars (messages bp) initial_response 0)
              (counted w 0)) as (-> & -> & -> & ->).
  destruct (finalize_closing self bp (mkLoopVars (messages bp) initial_response 0)
              (counted w 0) Ht) as (_ & _ & Hret & _).
  simpl. rewrite Ht. repeat split; auto.
Qed.

End OrchestratorInvariants.

(** ** The invariants at work *)

Lemma X1_witness :
  fst (messages_create (C:=ScriptedClient) [Failure (api_error "overloaded")]
         demo_params)
  = Failure (api_error "overloaded")
  /\ fst (generate_response demo_generator "What is programming?" None None
            (demo_world [Failure (api_error "overloaded")]))
     = Raise (api_error "overloaded").
Proof.
  split; [reflexivity|].
  pose proof (X1_first_call_failure_reaches_the_caller demo_generator
                "What is programming?" None None
                [Failure (api_error "overloaded")] (Some demo_manager)
                (api_error "overloaded")) as Hrun.
  specialize (Hrun eq_refl). exact (proj1 Hrun).
Defined.

Lemma X9_witness :
  (0 <= 0)%Z
  /\ tool_log
       (snd (_handle_tool_execution demo_generator
               (tool_use_response "call_1" "programming") demo_params 0
               (demo_world [Answer (text_response "Programming is fundamental.")])))
     = [].
Proof.
  split; [lia|].
  pose proof (X9_no_round_when_maximum_is_not_positive demo_generator
                (tool_use_response "call_1" "programming") demo_params 0
                (demo_world [Answer (text_response "Programming is fundamental.")]))
    as Hrun.
  specialize (Hrun ltac:(lia) eq_refl).
  destruct Hrun as (_ & _ & _ & Htools & _). exact Htools.
Defined.

Lemma X10_witness :
  content0_text (text_response "Programming is fundamental.")
  = Return "Programming is fundamental."
  /\ fst (generate_response_rounds 2 demo_generator "What is programming?"
            None None
            (demo_world
               [Answer (tool_use_response "call_1" "programming");
                Answer (text_response "Programming is fundamental.")]))
     = Return "Programming is fundamental.".
Proof.
  split; [reflexivity|].
  eapply proj1.
  apply (X10_text_of_the_last_answer_is_returned 2 demo_generator
           "What is programming?" None None
           [Answer (tool_use_response "call_1" "programming");
            Answer (text_response "Programming is fundamental.")]
           (Some demo_manager)
           [(demo_params, Answer (tool_use_response "call_1" "programming"))]
           (next_params demo_generator demo_params
              (loop_messages
                 (second_round (text_response "Programming is fundamental."))))
           (text_response "Programming is fundamental.")
           "Programming is fundamental.").
  - vm_compute. reflexivity.
  - reflexivity.
Defined.
